(** * vegacom/go: dufmt and dircolors

    A shallow embedding of the disk-usage formatter [dufmt/dufmt.go] and of the
    colour classifier [dircolors] it depends on, with the properties of the
    summarisation and rendering pipeline stated over it.

    Conventions.
    - Go's [int] is the 64-bit two's complement integer of linux/amd64 (the
      platform of the [TCGETS] ioctl in [isTerminal]); it is a [Z] together
      with [wrap_int] wherever the source does arithmetic on it.
    - A Go [string] or [[]byte] is a [string] (a sequence of bytes).
    - The operating system is a record of oracles ([World]); the functions of
      the Go standard library that the code calls are modelled from their
      documented behaviour, restricted to the arguments the code passes. *)

From Stdlib Require Import ZArith String Ascii List Lia Bool.
From stdpp Require Import gmap strings list fin_maps sorting pretty.

Local Open Scope string_scope.
Local Open Scope Z_scope.

(** ** Machine integers *)

Definition intSize : Z := 64.
Definition minInt : Z := - 2 ^ (intSize - 1).
Definition maxInt : Z := 2 ^ (intSize - 1) - 1.
Definition maxUint64 : Z := 2 ^ 64 - 1.

(** Two's complement reduction of a mathematical integer to Go's [int]. *)
Definition wrap_int (z : Z) : Z :=
  (z + 2 ^ (intSize - 1)) mod 2 ^ intSize - 2 ^ (intSize - 1).

(** The conversion [uint64(x)] of an [int]. *)
Definition to_uint64 (z : Z) : Z := z mod 2 ^ 64.

Definition in_int (z : Z) : Prop := minInt <= z <= maxInt.

(** ** Results of Go calls *)

(** The errors that the operating system and external programs report. *)
Inductive oserror : Type :=
| ENOENT                           (* no such file or directory *)
| EACCES                           (* permission denied *)
| EOTHER (msg : string).

(** Go's [error] values, as far as the code tells them apart. *)
Inductive error : Type :=
| OsError (e : oserror)
| SkipDir                          (* filepath.SkipDir *)
| ErrSyntax                        (* strconv.ErrSyntax *)
| ErrRange                         (* strconv.ErrRange *)
| ErrUnsupportedSystem             (* errors.New("unsupported system") *)
| ErrBadFormat (data : string)     (* fmt.Errorf("`dircolors -b` returned bad format (%q)", data) *)
| ErrUnexpectedFormat (line : string) (cause : error).
                                   (* fmt.Errorf("unexpected format: %q: %s", line, err) *)

(** A call either returns or panics at run time. *)
Inductive outcome (A : Type) : Type :=
| Returned (a : A)
| Panicked (msg : string).
Arguments Returned {A} a.
Arguments Panicked {A} msg.

Definition outcome_bind {A B} (x : outcome A) (f : A -> outcome B) : outcome B :=
  match x with
  | Returned a => f a
  | Panicked m => Panicked m
  end.

(** ** The Go standard library, as the code uses it *)

Module GoLib.

(** [cut c s] splits [s] around the first byte [c]: the part of
    [strings.Index] and of slicing that [Split] and [SplitN] share. *)
Fixpoint cut (c : ascii) (s : string) : option (string * string) :=
  match s with
  | EmptyString => None
  | String a r =>
      if Ascii.eqb a c then Some (EmptyString, r)
      else match cut c r with
           | Some (h, t) => Some (String a h, t)
           | None => None
           end
  end.

(** [strings.Split(s, sep)] and [bytes.Split] for a one-byte separator: all
    the substrings between separators, one more than there are separators. *)
Fixpoint strings_Split (sep : ascii) (s : string) : list string :=
  match s with
  | EmptyString => [EmptyString]
  | String a r =>
      if Ascii.eqb a sep then EmptyString :: strings_Split sep r
      else match strings_Split sep r with
           | h :: t => String a h :: t
           | [] => [String a EmptyString]
           end
  end.

(** At most [S m] substrings, the last one the unsplit remainder. *)
Fixpoint splitn_upto (sep : ascii) (s : string) (m : nat) : list string :=
  match m with
  | O => [s]
  | S m' =>
      match cut sep s with
      | None => [s]
      | Some (h, t) => h :: splitn_upto sep t m'
      end
  end.

(** [strings.SplitN(s, sep, n)] for a one-byte separator: [n = 0] gives nil,
    [n < 0] all substrings, [n > 0] at most [n] substrings. *)
Definition strings_SplitN (sep : ascii) (s : string) (n : Z) : list string :=
  if n =? 0 then []
  else if n <? 0 then strings_Split sep s
  else splitn_upto sep s (Z.to_nat (n - 1)).

(** The value of a decimal digit byte. *)
Definition digit_val (a : ascii) : option Z :=
  let n := Z.of_N (N_of_ascii a) in
  if (48 <=? n) && (n <=? 57) then Some (n - 48) else None.

(** The digit loop of [strconv.ParseUint(s, 10, 64)]: a byte that is no digit
    is a syntax error, a value beyond [maxUint64] a range error. *)
Fixpoint ParseUint_loop (s : string) (n : Z) : Z + error :=
  match s with
  | EmptyString => inl n
  | String c r =>
      match digit_val c with
      | None => inr ErrSyntax
      | Some d =>
          if maxUint64 <? n * 10 + d then inr ErrRange
          else ParseUint_loop r (n * 10 + d)
      end
  end.

(** [strconv.Atoi(s)], that is [ParseInt(s, 10, 0)]: an optional sign, at
    least one decimal digit, and a value that fits [int]. *)
Definition strconv_Atoi (s : string) : Z + error :=
  match s with
  | EmptyString => inr ErrSyntax
  | String a r =>
      let neg := Ascii.eqb a "-" in
      let body := if Ascii.eqb a "-" || Ascii.eqb a "+" then r else s in
      match body with
      | EmptyString => inr ErrSyntax
      | _ =>
          match ParseUint_loop body 0 with
          | inr e => inr e
          | inl un =>
              if negb neg && (maxInt <? un) then inr ErrRange
              else if neg && (- minInt <? un) then inr ErrRange
              else inl (if neg then - un else un)
          end
      end
  end.

(** [filepath.Ext(path)]: the suffix of [path] that starts at the last dot of
    its last element, empty when that element has no dot. The scan runs from
    the end of the path back to the last separator. *)
Fixpoint Ext_scan (rev_path : list ascii) (suffix : list ascii) : list ascii :=
  match rev_path with
  | [] => []
  | c :: r =>
      if Ascii.eqb c "/" then []
      else if Ascii.eqb c "." then c :: suffix
      else Ext_scan r (c :: suffix)
  end.

Definition filepath_Ext (path : string) : string :=
  string_of_list_ascii (Ext_scan (rev (list_ascii_of_string path)) []).

(** [strings.Index(s, c)] and [strings.LastIndex(s, c)] for a one-byte
    needle; [-1] when it does not occur. *)
Fixpoint strings_Index (c : ascii) (s : string) : Z :=
  match s with
  | EmptyString => -1
  | String a r =>
      if Ascii.eqb a c then 0
      else let i := strings_Index c r in if i <? 0 then -1 else i + 1
  end.

Fixpoint strings_LastIndex (c : ascii) (s : string) : Z :=
  match s with
  | EmptyString => -1
  | String a r =>
      let i := strings_LastIndex c r in
      if 0 <=? i then i + 1
      else if Ascii.eqb a c then 0 else -1
  end.

(** The slice expression [s[lo:hi]]; it panics unless [0 <= lo <= hi <= len(s)]. *)
Definition slice (s : string) (lo hi : Z) : outcome string :=
  if (0 <=? lo) && (lo <=? hi) && (hi <=? Z.of_nat (String.length s))
  then Returned (String.substring (Z.to_nat lo) (Z.to_nat (hi - lo)) s)
  else Panicked "slice bounds out of range".

(** The index expression [items[i]] on a slice of strings. *)
Definition index (items : list string) (i : nat) : outcome string :=
  match items !! i with
  | Some x => Returned x
  | None => Panicked "index out of range"
  end.

End GoLib.

Import GoLib.

(** ** The operating system *)

(** [os.FileMode] is a [uint32]; the bits the classifier tests. *)
Definition ModeDir : Z := Z.shiftl 1 31.
Definition ModeSymlink : Z := Z.shiftl 1 27.
Definition ModeDevice : Z := Z.shiftl 1 26.
Definition ModeNamedPipe : Z := Z.shiftl 1 25.
Definition ModeSocket : Z := Z.shiftl 1 24.
Definition ModeSetuid : Z := Z.shiftl 1 23.
Definition ModeSetgid : Z := Z.shiftl 1 22.
Definition ModeCharDevice : Z := Z.shiftl 1 21.

(** [syscall.Stat_t], of which the code reads [Nlink] only. *)
Record Stat_t : Type := { Nlink : Z }.

(** [os.FileInfo]: [Sys] is [Some] exactly when the type assertion
    [info.Sys().( *syscall.Stat_t)] succeeds. *)
Record FileInfo : Type := { Mode : Z; Sys : option Stat_t }.

(** [mode & bit != 0] *)
Definition has_bit (mode bit : Z) : bool := negb (Z.land mode bit =? 0).

Definition IsDir (info : FileInfo) : bool := has_bit (Mode info) ModeDir.

(** [os.IsNotExist(err)] *)
Definition IsNotExist (err : oserror) : bool :=
  match err with ENOENT => true | _ => false end.

(** [err != nil] *)
Definition not_nil (err : option error) : bool :=
  match err with Some _ => true | None => false end.

Definition is_SkipDir (err : error) : bool :=
  match err with SkipDir => true | _ => false end.

#[local] Set Warnings "-register-all".

(** The file tree below a path, as [filepath.Walk] gets to see it: the name
    of each entry, whether [os.Lstat] succeeds on it and, for a directory,
    what reading it returns (an error, or the entries in lexical order). *)
Inductive ftree : Type :=
| NoStat (name : string) (e : oserror)
| Node (name : string) (info : FileInfo) (readdir : option oserror) (children : list ftree).

Definition entry_name (t : ftree) : string :=
  match t with NoStat n _ | Node n _ _ _ => n end.

(** Induction on file trees, with the hypothesis for every child. *)
Fixpoint ftree_children_ind (P : ftree -> Prop)
    (HNoStat : forall name e, P (NoStat name e))
    (HNode : forall name info readdir children,
        Forall P children -> P (Node name info readdir children))
    (t : ftree) {struct t} : P t :=
  match t with
  | NoStat name e => HNoStat name e
  | Node name info readdir children =>
      HNode name info readdir children
        ((fix all (l : list ftree) : Forall P l :=
            match l with
            | [] => List.Forall_nil P
            | c :: r => @List.Forall_cons _ P c r (ftree_children_ind P HNoStat HNode c) (all r)
            end) children)
  end.

(** What a run finds outside the two packages: the file system, the
    environment, the command line, the external programs, and the two
    library functions that are left uninterpreted ([filepath.Join], which
    cleans the path it builds, and [humanize.IBytes]). *)
Record World : Type := {
  os_Lstat : string -> FileInfo + oserror;
  os_Stat : string -> FileInfo + oserror;
  os_Readlink : string -> string + oserror;
  fs_tree : string -> ftree;
  filepath_Glob : string -> list string + oserror;
  filepath_Join : string -> string -> string;
  humanize_IBytes : Z -> string;               (* of a uint64; computed in floating point *)
  LS_COLORS : string;                          (* os.Getenv("LS_COLORS") *)
  dircolors_Output : string + oserror;         (* exec.Command("dircolors", "-b").Output() *)
  du_Output : list string -> string + oserror; (* exec.Command("du", duArgs...).Output() *)
  flag_color : string;                         (* *color *)
  flag_Args : list string;                     (* flag.Args() *)
  isTerminal : bool                            (* isTerminal(syscall.Stdout) *)
}.

(** ** [filepath.Walk] *)

Section Walk.
Context {S : Type}.
Variable Join : string -> string -> string.
(** [walkFn(path, info, err)], with the variables it captures as a state. *)
Variable walkFn : string -> option FileInfo -> option error -> S -> S * option error.

(** [walk(path, info, walkFn)], on a path whose [Lstat] succeeded: a
    directory is read, [walkFn] is called on it with the error of reading
    it, and then each entry is examined and walked in turn. An error that
    [walkFn] returns stops the walk, [SkipDir] apart. *)
Fixpoint walk (path : string) (t : ftree) (st : S) {struct t} : S * option error :=
  match t with
  | NoStat _ _ => (st, None)
  | Node _ info readdir children =>
      if negb (IsDir info) then walkFn path (Some info) None st
      else
        let '(st1, err1) := walkFn path (Some info) (OsError <$> readdir) st in
        if not_nil (OsError <$> readdir) || not_nil err1 then (st1, err1)
        else
          (fix loop (l : list ftree) (st : S) {struct l} : S * option error :=
             match l with
             | [] => (st, None)
             | child :: rest =>
                 let filename := Join path (entry_name child) in
                 match child with
                 | NoStat _ e =>
                     let '(st', r) := walkFn filename None (Some (OsError e)) st in
                     match r with
                     | Some err => if is_SkipDir err then loop rest st' else (st', Some err)
                     | None => loop rest st'
                     end
                 | Node _ cinfo _ _ =>
                     let '(st', r) := walk filename child st in
                     match r with
                     | Some err =>
                         if negb (IsDir cinfo) || negb (is_SkipDir err) then (st', Some err)
                         else loop rest st'
                     | None => loop rest st'
                     end
                 end
             end) children st1
  end.

Definition filepath_Walk (root : string) (t : ftree) (st : S) : S * option error :=
  let '(st', err) :=
    match t with
    | NoStat _ e => walkFn root None (Some (OsError e)) st
    | Node _ _ _ _ => walk root t st
    end in
  match err with
  | Some e => if is_SkipDir e then (st', None) else (st', Some e)
  | None => (st', None)
  end.
End Walk.

(** ** Process state *)

(** What [glog] wrote to the diagnostic stream. *)
Inductive logline : Type :=
| Warning (msg : string) (e : error)     (* glog.Warningf(msg, err) *)
| Fatal (msg : string) (e : error).      (* glog.Exitf(msg, err), glog.Exit(err) *)

(** The mutable state of a run: the package variable [tty] of dircolors
    ([None] is the nil map), the diagnostic stream and standard output. *)
Record State : Type := {
  tty : option (gmap string string);
  glog : list logline;
  stdout : list string
}.

Definition init_State : State := {| tty := None; glog := []; stdout := [] |}.

Definition set_tty (m : gmap string string) (st : State) : State :=
  {| tty := Some m; glog := glog st; stdout := stdout st |}.
Definition log (l : logline) (st : State) : State :=
  {| tty := tty st; glog := glog st ++ [l]; stdout := stdout st |}.
Definition write (line : string) (st : State) : State :=
  {| tty := tty st; glog := glog st; stdout := stdout st ++ [line] |}.

(** Stateful computations that may panic. *)
Definition M (A : Type) : Type := State -> outcome A * State.

Definition ret {A} (a : A) : M A := fun st => (Returned a, st).
Definition bind {A B} (c : M A) (k : A -> M B) : M B :=
  fun st =>
    match c st with
    | (Returned a, st') => k a st'
    | (Panicked m, st') => (Panicked m, st')
    end.
Definition lift {A} (x : outcome A) : M A := fun st => (x, st).
Definition modify (f : State -> State) : M unit := fun st => (Returned tt, f st).
Definition get : M State := fun st => (Returned st, st).

Notation "x <- c ;; k" := (bind c (fun x => k))
  (at level 100, c at next level, right associativity).
Notation "c ;;; k" := (bind c (fun _ => k))
  (at level 100, right associativity).

(** ** Package dircolors *)

Module dircolors.

Definition Reset : string := "rs".
Definition Dir : string := "di".
Definition Link : string := "ln".
Definition MultiHardlink : string := "mh".
Definition NamedPipe : string := "pi".
Definition Socket : string := "so".
Definition BlockDevice : string := "bd".
Definition CharDevice : string := "cd".
Definition Orphan : string := "or".
Definition Setuid : string := "su".
Definition Setgid : string := "sg".
Definition Executable : string := "ex".

(** [Key(fpath)]: the dircolors code of [fpath], or an error. *)
Definition Key (W : World) (fpath : string) : string + error :=
  match os_Lstat W fpath with
  | inr err => if IsNotExist err then inl Orphan else inr (OsError err)
  | inl info =>
      if IsDir info then inl Dir
      else
        let mode := Mode info in
        if has_bit mode ModeSymlink then
          match os_Readlink W fpath with
          | inr _ => inl Orphan
          | inl _ => inl Link
          end
        else if has_bit mode ModeNamedPipe then inl NamedPipe
        else if has_bit mode ModeSocket then inl Socket
        else if has_bit mode ModeDevice then
          if has_bit mode ModeCharDevice then inl CharDevice else inl BlockDevice
        else if has_bit mode ModeSetuid then inl Setuid
        else if has_bit mode ModeSetgid then inl Setgid
        else if has_bit mode 73 (* 0111 *) then inl Executable
        else
          match Sys info with
          | None => inr ErrUnsupportedSystem
          | Some sys =>
              if 1 <? Nlink sys then inl MultiHardlink
              else
                let ext := filepath_Ext fpath in
                if negb (String.eqb ext "") then inl ("*" +:+ ext)
                else inl Reset
          end
  end.

(** [execDircolors()]: the text between the first and the last single quote
    of what [dircolors -b] prints. *)
Definition execDircolors (W : World) : outcome (string + error) :=
  match dircolors_Output W with
  | inr err => Returned (inr (OsError err))
  | inl data =>
      let start := strings_Index "'" data in
      let end_ := strings_LastIndex "'" data in
      if (start =? -1) || (end_ =? -1) then Returned (inr (ErrBadFormat data))
      else outcome_bind (slice data (start + 1) end_) (fun s => Returned (inl s))
  end.

(** The body of the loop of [parseDircolors]: one pair of the specification. *)
Definition store_pair (m : gmap string string) (pair : string) : gmap string string :=
  match strings_SplitN "=" pair 2 with
  | [k; v] => <[k := v]> m
  | _ => m
  end.

(** The loop of [parseDircolors] over [strings.Split(s, ":")]. *)
Definition parse_pairs (s : string) : gmap string string :=
  fold_left store_pair (strings_Split ":" s) ∅.

(** [parseDircolors()]: the specification comes from [LS_COLORS] or, when
    that is empty, from [dircolors -b]. *)
Definition parseDircolors (W : World) : M (gmap string string) :=
  s <- (if String.eqb (LS_COLORS W) ""
        then r <- lift (execDircolors W) ;;
             match r with
             | inr err => modify (log (Warning "no dircolor support: %s" err)) ;;; ret ""
             | inl s => ret s
             end
        else ret (LS_COLORS W)) ;;
  ret (parse_pairs s).

(** [tty[key]]: the zero value for a missing key. *)
Definition map_index (m : gmap string string) (key : string) : string :=
  default "" (m !! key).

Definition ESC : string := String (ascii_of_nat 27) "".

(** [ForTTY(fpath)] *)
Definition ForTTY (W : World) (fpath : string) : M string :=
  st <- get ;;
  m <- match tty st with
       | None => m <- parseDircolors W ;; modify (set_tty m) ;;; ret m
       | Some m => ret m
       end ;;
  match Key W fpath with
  | inr _ => ret fpath
  | inl key =>
      if String.eqb (map_index m key) "" then ret fpath
      else ret (ESC +:+ "[" +:+ map_index m key +:+ "m" +:+ fpath +:+ ESC +:+ "[0m")
  end.

End dircolors.

(** ** Command dufmt *)

Module dufmt.

Record duInfo : Type := { name : string; size : Z; childrenCount : Z }.

(** [type duSlice []*duInfo]; a record is never updated once it is built, so
    the slice holds the records themselves. *)
Abbreviation duSlice := (list duInfo).

(** [sort.Interface] *)
Class Interface (T : Type) : Type := {
  Len : T -> nat;
  Less : T -> nat -> nat -> outcome bool;
  Swap : T -> nat -> nat -> outcome T
}.

#[export] Instance duSlice_Interface : Interface duSlice := {
  Len s := length s;
  Less s i j :=
    match s !! i, s !! j with
    | Some a, Some b => Returned (size a <? size b)
    | _, _ => Panicked "index out of range"
    end;
  Swap s i j :=
    match s !! i, s !! j with
    | Some a, Some b => Returned (<[j := a]> (<[i := b]> s))
    | _, _ => Panicked "index out of range"
    end
}.


(** The closure [walk] of [count]: [n] is its captured variable. *)
Definition count_walk (path : string) (info : option FileInfo) (err : option error)
    (n : Z) : Z * option error :=
  match err with
  | Some e => (n, Some e)
  | None => (wrap_int (n + 1), None)
  end.

(** [count(fpath)]; the error that [filepath.Walk] returns is dropped. *)
Definition count (W : World) (fpath : string) : Z :=
  fst (filepath_Walk (filepath_Join W) count_walk fpath (fs_tree W fpath) 0).

Definition TAB : ascii := ascii_of_nat 9.
Definition LF : ascii := ascii_of_nat 10.

(** The loop of [newDuSlice] over the lines of the report. *)
Fixpoint newDuSlice_loop (W : World) (lines : list string) (s : duSlice)
    : outcome (duSlice + error) :=
  match lines with
  | [] => Returned (inl s)
  | line :: rest =>
      if String.eqb line "" then newDuSlice_loop W rest s
      else
        let items := strings_SplitN TAB line 2 in
        outcome_bind (index items 0) (fun item0 =>
        match strconv_Atoi item0 with
        | inr err => Returned (inr (ErrUnexpectedFormat line err))
        | inl sz =>
            outcome_bind (index items 1) (fun item1 =>
            newDuSlice_loop W rest
              (s ++ [{| name := item1; size := sz; childrenCount := count W item1 |}]))
        end)
  end.

(** [newDuSlice(data)] *)
Definition newDuSlice (W : World) (data : string) : outcome (duSlice + error) :=
  newDuSlice_loop W (strings_Split LF data) [].

(** [paths(args)] *)
Definition paths (W : World) (args : list string) : list string + oserror :=
  match args with
  | [] => filepath_Glob W "*"
  | [first] =>
      match os_Stat W first with
      | inr err => inr err
      | inl fi =>
          if IsDir fi then filepath_Glob W (filepath_Join W first "*")
          else inl args
      end
  | _ => inl args
  end.

Definition baseDuArgs : list string := ["--summarize"; "--bytes"; "--"].

Definition execDu (W : World) (paths : list string) : string + oserror :=
  du_Output W (baseDuArgs ++ paths).

(** [total(s)]: the running sum is an [int]. *)
Definition total (s : duSlice) : Z :=
  fold_left (fun t x => wrap_int (t + size x)) s 0.

(** [fmt.Sprintf("%<w>s", s)] for a string of one-byte characters. *)
Definition pad_left (w : nat) (s : string) : string :=
  string_of_list_ascii (repeat " "%char (w - String.length s)) +:+ s.

Definition formatCount (n : Z) : string :=
  if n <=? 1 then "         " else pad_left 9 (pretty n).

(** [fmt.Sprintf("%12s %s %s\n", humanized, count, name)] *)
Definition Sprintf_line (humanized count name : string) : string :=
  pad_left 12 humanized +:+ " " +:+ count +:+ " " +:+ name +:+ String LF "".

Definition colorize (W : World) : bool :=
  String.eqb (flag_color W) "always"
  || (String.eqb (flag_color W) "auto" && isTerminal W).

(** The line that [WriteAll] writes for [info], given the name to show. *)
Definition line_of (W : World) (info : duInfo) (shown : string) : string :=
  Sprintf_line (humanize_IBytes W (to_uint64 (size info)))
               (formatCount (childrenCount info)) shown.

(** The loop of [WriteAll]. *)
Fixpoint WriteAll_loop (W : World) (colorize : bool) (s : duSlice) : M unit :=
  match s with
  | [] => ret tt
  | info :: rest =>
      shown <- (if colorize then dircolors.ForTTY W (name info) else ret (name info)) ;;
      modify (write (line_of W info shown)) ;;;
      WriteAll_loop W colorize rest
  end.

Definition WriteAll (W : World) (s : duSlice) : M unit :=
  WriteAll_loop W (colorize W) s.

(** How a run ends: [main] returns, [glog.Exit] ends the process with status
    1, or a panic does. *)
Inductive termination : Type :=
| Done
| Exit (code : Z)
| Crash (msg : string).

Definition glog_Exit (l : logline) (st : State) : termination * State :=
  (Exit 1, log l st).

(** The records that [main] hands to [WriteAll]: the sorted slice with the
    synthesized total appended. *)
Definition with_total (sorted : duSlice) : duSlice :=
  sorted ++ [{| name := "total"; size := total sorted; childrenCount := 0 |}].

Section Main.
(** [sort.Sort] on a [duSlice]; see [sort_contract]. *)
Variable sort_Sort : duSlice -> duSlice.

Definition main (W : World) (st : State) : termination * State :=
  match paths W (flag_Args W) with
  | inr err => glog_Exit (Fatal "Bad args: %s" (OsError err)) st
  | inl ps =>
      match execDu W ps with
      | inr err => glog_Exit (Fatal "Cannot execute du: %s" (OsError err)) st
      | inl data =>
          match newDuSlice W data with
          | Panicked m => (Crash m, st)
          | Returned (inr err) => glog_Exit (Fatal "" err) st
          | Returned (inl s) =>
              match WriteAll W (with_total (sort_Sort s)) st with
              | (Returned _, st') => (Done, st')
              | (Panicked m, st') => (Crash m, st')
              end
          end
      end
  end.
End Main.

End dufmt.

Import dufmt.

(** ** Specification-side definitions *)

(** The exact (mathematical) sum of the sizes of a sequence of records. *)
Definition sum_sizes (s : duSlice) : Z := foldr (fun x acc => size x + acc) 0 s.



(** A sorting function that meets [sort_contract] and is not stable: a
    descending merge sort, reversed. *)
Definition by_size_desc (a b : duInfo) : Prop := size b <= size a.

#[local] Instance by_size_desc_dec : RelDecision by_size_desc :=
  fun a b => decide (size b <= size a).


(** A sorting function that meets [sort_contract]: an ascending merge sort. *)
Definition by_size (a b : duInfo) : Prop := size a <= size b.

#[local] Instance by_size_dec : RelDecision by_size :=
  fun a b => decide (size a <= size b).

Definition sort_by_size (s : duSlice) : duSlice := merge_sort by_size s.

(** The callbacks that [filepath.Walk] makes on a tree for as long as
    [walkFn] returns nil, in order: the error each one is passed. *)
Fixpoint events (t : ftree) : list (option oserror) :=
  match t with
  | NoStat _ e => [Some e]
  | Node _ info readdir children =>
      if negb (IsDir info) then [None]
      else match readdir with
           | Some e => [Some e]
           | None => None :: concat (map events children)
           end
  end.

(** What the closure of [count] does on a sequence of callbacks: it counts
    the successful ones up to the first error, which it returns. *)
Fixpoint run_events (evs : list (option oserror)) (n : Z) : Z * option error :=
  match evs with
  | [] => (n, None)
  | None :: rest => run_events rest (wrap_int (n + 1))
  | Some e :: _ => (n, Some (OsError e))
  end.

(** The number of entries visited before the first error. *)
Fixpoint visited_before_error (evs : list (option oserror)) : nat :=
  match evs with
  | None :: rest => S (visited_before_error rest)
  | _ => O
  end.

(** The number of entries that can be visited at all: those whose callback
    is passed no error, wherever they are in the tree. *)
Definition visitable (t : ftree) : nat :=
  length (filter (fun ev => ev = None) (events t)).

(** The number of occurrences of the byte [c] in [s]. *)
Fixpoint occurrences (c : ascii) (s : string) : nat :=
  match s with
  | EmptyString => O
  | String a r => ((if Ascii.eqb a c then 1 else 0) + occurrences c r)%nat
  end.

(** The classifier as the priority list of the specification reads: the
    rules in order, each with the condition under which it applies and its
    verdict; the first rule that applies decides. The conditions are on the
    bits of the mode word: 31 directory, 27 symbolic link, 26 device, 25
    named pipe, 24 socket, 23 setuid, 22 setgid, 21 character device, and
    6, 3 and 0 the execute permissions of owner, group and others. The rule
    on hard links needs the link count; where the platform does not give
    it, classification fails at that point. *)
Definition priority_rules (W : World) (fpath : string) (info : FileInfo)
    : list (bool * (string + error)) :=
  let bit n := Z.testbit (Mode info) n in
  [ (bit 31, inl "di");
    (bit 27, inl (match os_Readlink W fpath with inr _ => "or" | inl _ => "ln" end));
    (bit 25, inl "pi");
    (bit 24, inl "so");
    (bit 26, inl (if bit 21 then "cd" else "bd"));
    (bit 23, inl "su");
    (bit 22, inl "sg");
    (bit 6 || bit 3 || bit 0, inl "ex");
    (match Sys info with None => true | Some _ => false end, inr ErrUnsupportedSystem);
    (match Sys info with Some sys => 1 <? Nlink sys | None => false end, inl "mh");
    (negb (String.eqb (filepath_Ext fpath) ""), inl ("*" +:+ filepath_Ext fpath)) ].

Fixpoint first_match (rules : list (bool * (string + error))) : string + error :=
  match rules with
  | [] => inl "rs"
  | (applies, verdict) :: rest => if applies then verdict else first_match rest
  end.

Definition classify_spec (W : World) (fpath : string) : string + error :=
  match os_Lstat W fpath with
  | inr ENOENT => inl "or"
  | inr e => inr (OsError e)
  | inl info => first_match (priority_rules W fpath info)
  end.

(** ** Sample worlds *)

Definition NL : string := String LF "".
Definition HT : string := String TAB "".

(** A stand-in for [humanize.IBytes] in the examples. *)
Definition plain_IBytes (z : Z) : string := pretty z +:+ " B".

(** A world with no files, no colour database and an empty report. *)
Definition quiet : World := {|
  os_Lstat := fun _ => inr ENOENT;
  os_Stat := fun _ => inr ENOENT;
  os_Readlink := fun _ => inr ENOENT;
  fs_tree := fun p => NoStat p ENOENT;
  filepath_Glob := fun _ => inl [];
  filepath_Join := fun a b => a +:+ "/" +:+ b;
  humanize_IBytes := plain_IBytes;
  LS_COLORS := "";
  dircolors_Output := inr ENOENT;
  du_Output := fun _ => inl "";
  flag_color := "never";
  flag_Args := [];
  isTerminal := false
|}.

(** A world in which [du] prints the given report. *)
Definition with_report (W : World) (data : string) : World := {|
  os_Lstat := os_Lstat W;
  os_Stat := os_Stat W;
  os_Readlink := os_Readlink W;
  fs_tree := fs_tree W;
  filepath_Glob := filepath_Glob W;
  filepath_Join := filepath_Join W;
  humanize_IBytes := humanize_IBytes W;
  LS_COLORS := LS_COLORS W;
  dircolors_Output := dircolors_Output W;
  du_Output := fun _ => inl data;
  flag_color := flag_color W;
  flag_Args := flag_Args W;
  isTerminal := isTerminal W
|}.

Definition file_0644 (nlink : option Z) : FileInfo :=
  {| Mode := 420; Sys := (fun n => {| Nlink := n |}) <$> nlink |}.
Definition dir_0755 : FileInfo :=
  {| Mode := Z.lor ModeDir 493; Sys := Some {| Nlink := 2 |} |}.

(** A directory [d] with entries [a], [b] and [c], of which [b] cannot be
    examined. *)
Definition tree_d : ftree :=
  Node "d" dir_0755 None
    [Node "a" (file_0644 (Some 1)) None [];
     NoStat "b" EACCES;
     Node "c" (file_0644 (Some 1)) None []].

Definition world_d : World := {|
  os_Lstat := fun _ => inl dir_0755;
  os_Stat := fun _ => inl dir_0755;
  os_Readlink := fun _ => inr (EOTHER "invalid argument");
  fs_tree := fun _ => tree_d;
  filepath_Glob := fun _ => inl ["d"];
  filepath_Join := fun a b => a +:+ "/" +:+ b;
  humanize_IBytes := plain_IBytes;
  LS_COLORS := "";
  dircolors_Output := inr ENOENT;
  du_Output := fun _ => inl ("4096" +:+ HT +:+ "d" +:+ NL);
  flag_color := "never";
  flag_Args := [];
  isTerminal := false
|}.

(** A world in which the only file, [f], is a plain file whose link count
    the platform does not report; colours are requested. *)
Definition world_nolink : World := {|
  os_Lstat := fun _ => inl (file_0644 None);
  os_Stat := fun _ => inl (file_0644 None);
  os_Readlink := fun _ => inr (EOTHER "invalid argument");
  fs_tree := fun p => Node p (file_0644 None) None [];
  filepath_Glob := fun _ => inl ["f"];
  filepath_Join := fun a b => a +:+ "/" +:+ b;
  humanize_IBytes := plain_IBytes;
  LS_COLORS := "rs=0:di=01;34:mh=00";
  dircolors_Output := inr ENOENT;
  du_Output := fun _ => inl ("10" +:+ HT +:+ "f" +:+ NL);
  flag_color := "always";
  flag_Args := [];
  isTerminal := false
|}.

(** [quiet], called with the single argument [nope]. *)
Definition world_nope : World := {|
  os_Lstat := os_Lstat quiet;
  os_Stat := os_Stat quiet;
  os_Readlink := os_Readlink quiet;
  fs_tree := fs_tree quiet;
  filepath_Glob := filepath_Glob quiet;
  filepath_Join := filepath_Join quiet;
  humanize_IBytes := humanize_IBytes quiet;
  LS_COLORS := LS_COLORS quiet;
  dircolors_Output := dircolors_Output quiet;
  du_Output := du_Output quiet;
  flag_color := flag_color quiet;
  flag_Args := ["nope"];
  isTerminal := isTerminal quiet
|}.

(** [quiet], where every path is a file with the given metadata. *)
Definition world_with (info : FileInfo) : World := {|
  os_Lstat := fun _ => inl info;
  os_Stat := fun _ => inl info;
  os_Readlink := os_Readlink quiet;
  fs_tree := fun p => Node p info None [];
  filepath_Glob := filepath_Glob quiet;
  filepath_Join := filepath_Join quiet;
  humanize_IBytes := humanize_IBytes quiet;
  LS_COLORS := LS_COLORS quiet;
  dircolors_Output := dircolors_Output quiet;
  du_Output := du_Output quiet;
  flag_color := flag_color quiet;
  flag_Args := flag_Args quiet;
  isTerminal := isTerminal quiet
|}.

(** A setuid directory with mode 0755, and an executable file with mode
    0755 and two hard links. *)
Definition setuid_dir : FileInfo :=
  {| Mode := Z.lor ModeDir (Z.lor ModeSetuid 493); Sys := Some {| Nlink := 2 |} |}.
Definition exec_two_links : FileInfo :=
  {| Mode := 493; Sys := Some {| Nlink := 2 |} |}.

(** Reports used in the examples. *)
Definition report_overflow : string :=
  "9223372036854775807" +:+ HT +:+ "a" +:+ NL +:+ "1" +:+ HT +:+ "b" +:+ NL.
Definition report_tmp : string :=
  "4096" +:+ HT +:+ "/tmp" +:+ NL +:+ "1024" +:+ HT +:+ "/tmp/a" +:+ NL.

Definition rec (n : string) (sz : Z) : duInfo :=
  {| name := n; size := sz; childrenCount := 0 |}.

(** ** Well-formed report lines *)

(** The first field of a report line: the text before its first tab, or the
    whole line when it has no tab. *)
Definition first_field (line : string) : string :=
  match cut TAB line with
  | Some (h, _) => h
  | None => line
  end.

(** The line [line] is well formed and stands for the record [r]: it is the
    text of an integer, a tab, and the name of [r]; the size of [r] is that
    integer and its count of children the count for its name. *)
Definition parses_to (W : World) (line : string) (r : duInfo) : Prop :=
  exists sz_text : string,
    line = sz_text +:+ String TAB (name r) /\
    occurrences TAB sz_text = O /\
    strconv_Atoi sz_text = inl (size r) /\
    childrenCount r = count W (name r).

(** The non-empty lines of a report. *)
Definition report_lines (data : string) : list string :=
  filter (fun line => line <> "") (strings_Split LF data).

(** A world with an empty [LS_COLORS], colours requested, in which
    [dircolors -b] gives [out] and [du] prints [data]. *)
Definition world_dircolors (out : string + oserror) (data : string) : World := {|
  os_Lstat := fun _ => inl dir_0755;
  os_Stat := fun _ => inl dir_0755;
  os_Readlink := os_Readlink quiet;
  fs_tree := fs_tree quiet;
  filepath_Glob := filepath_Glob quiet;
  filepath_Join := filepath_Join quiet;
  humanize_IBytes := humanize_IBytes quiet;
  LS_COLORS := "";
  dircolors_Output := out;
  du_Output := fun _ => inl data;
  flag_color := "always";
  flag_Args := [];
  isTerminal := false
|}.

(** What [dircolors -b] prints, cut short. *)
Definition dircolors_b : string :=
  "LS_COLORS='di=01;34:ln=01;36';" +:+ NL +:+ "export LS_COLORS" +:+ NL.

(** The escape sequences that [ForTTY] puts around a path. *)
Definition ESC_wrap (attr fpath : string) : string :=
  dircolors.ESC +:+ "[" +:+ attr +:+ "m" +:+ fpath +:+ dircolors.ESC +:+ "[0m".

(** * Properties *)

(** ** The library models on small inputs *)

Example Split_two_lines :
  strings_Split "010" ("4096" +:+ String "009" "/tmp" +:+ String "010" "")
  = ["4096" +:+ String "009" "/tmp"; ""].
Proof. reflexivity. Qed.

Example SplitN_first_sep : strings_SplitN "=" "a=b=c" 2 = ["a"; "b=c"].
Proof. reflexivity. Qed.

Example Atoi_examples :
  strconv_Atoi "4096" = inl 4096 /\ strconv_Atoi "-5" = inl (-5) /\
  strconv_Atoi "+7" = inl 7 /\ strconv_Atoi "notanumber" = inr ErrSyntax /\
  strconv_Atoi "" = inr ErrSyntax /\ strconv_Atoi "-" = inr ErrSyntax /\
  strconv_Atoi "9223372036854775807" = inl maxInt /\
  strconv_Atoi "9223372036854775808" = inr ErrRange /\
  strconv_Atoi "-9223372036854775808" = inl minInt.
Proof. repeat split; reflexivity. Qed.

Example Ext_examples :
  filepath_Ext "a/b.tar.gz" = ".gz" /\ filepath_Ext "a.d/b" = "" /\
  filepath_Ext ".bashrc" = ".bashrc" /\ filepath_Ext "x." = ".".
Proof. repeat split; reflexivity. Qed.

(** The report of the specification's round trip: two records, in the order
    of the report, and a total of 5120; and its malformed line. *)
Example newDuSlice_round_trip :
  newDuSlice quiet report_tmp = Returned (inl [rec "/tmp" 4096; rec "/tmp/a" 1024]) /\
  total [rec "/tmp" 4096; rec "/tmp/a" 1024] = 5120.
Proof. split; reflexivity. Qed.

Example newDuSlice_malformed :
  newDuSlice quiet ("notanumber" +:+ HT +:+ "/x" +:+ NL)
  = Returned (inr (ErrUnexpectedFormat ("notanumber" +:+ HT +:+ "/x") ErrSyntax)) /\
  main sort_by_size (with_report quiet ("notanumber" +:+ HT +:+ "/x" +:+ NL)) init_State
  = (Exit 1,
     log (Fatal "" (ErrUnexpectedFormat ("notanumber" +:+ HT +:+ "/x") ErrSyntax))
       init_State).
Proof. split; reflexivity. Qed.

(** ** Machine arithmetic *)

Lemma wrap_int_idem (a b : Z) : wrap_int (wrap_int a + b) = wrap_int (a + b).
Proof.
  unfold wrap_int. f_equal.
  replace (((a + 2 ^ (intSize - 1)) mod 2 ^ intSize - 2 ^ (intSize - 1) + b
            + 2 ^ (intSize - 1)))
    with ((a + 2 ^ (intSize - 1)) mod 2 ^ intSize + b) by lia.
  rewrite Zplus_mod_idemp_l. f_equal. lia.
Qed.

Lemma half_range : 2 ^ (intSize - 1) = 9223372036854775808.
Proof. reflexivity. Qed.

Lemma full_range : 2 ^ intSize = 18446744073709551616.
Proof. reflexivity. Qed.

Ltac int_bounds :=
  unfold in_int, wrap_int, to_uint64, minInt, maxInt in *;
  rewrite ?half_range, ?full_range in *;
  change (2 ^ 64) with 18446744073709551616 in *.

Lemma wrap_int_small (z : Z) : in_int z -> wrap_int z = z.
Proof. int_bounds. intros Hz. rewrite Z.mod_small; lia. Qed.

Lemma wrap_int_range (z : Z) : in_int (wrap_int z).
Proof.
  int_bounds.
  pose proof (Z.mod_pos_bound (z + 9223372036854775808) 18446744073709551616).
  lia.
Qed.

Lemma total_from (s : duSlice) (a : Z) :
  fold_left (fun t x => wrap_int (t + size x)) s (wrap_int a)
  = wrap_int (a + sum_sizes s).
Proof.
  revert a. induction s as [|x s IH]; intros a; simpl.
  - f_equal. lia.
  - rewrite wrap_int_idem, IH. f_equal. lia.
Qed.

(** [total] is the exact sum reduced to an [int]. *)
Lemma total_wrap (s : duSlice) : total s = wrap_int (sum_sizes s).
Proof.
  unfold total. change 0 with (wrap_int 0) at 1. apply total_from.
Qed.

(** ** Writing the report *)

(** Whatever happens, [WriteAll] only appends lines to standard output, one
    for each record of a prefix of the slice, in order; when it returns,
    the prefix is the whole slice. *)
Lemma WriteAll_loop_lines (W : World) (c : bool) (s : duSlice) (st st' : State)
    (r : outcome unit) :
  WriteAll_loop W c s st = (r, st') ->
  exists shown : list string,
    stdout st' = (stdout st ++ zip_with (line_of W) s shown)%list /\
    (length shown <= length s)%nat /\
    (r = Returned tt -> length shown = length s).
Proof.
  revert st. induction s as [|info s IH]; intros st; simpl.
  - unfold ret. intros [= <- <-]. exists []. simpl. rewrite app_nil_r. auto.
  - unfold bind at 1.
    destruct (if c then dircolors.ForTTY W (name info) else ret (name info)) eqn:Hshow.
    assert (Hout : stdout s0 = stdout st).
    { destruct c.
      - unfold dircolors.ForTTY, bind, get, ret, modify, lift in Hshow.
        destruct (tty st) eqn:Htty.
        + destruct (dircolors.Key W (name info)); [destruct (String.eqb _ _)|];
            by injection Hshow as <- <-.
        + unfold dircolors.parseDircolors, bind, ret, modify, lift in Hshow.
          destruct (String.eqb (LS_COLORS W) "").
          * destruct (dircolors.execDircolors W) as [[x|e]|msg]; simpl in Hshow.
            -- destruct (dircolors.Key W (name info)); [destruct (String.eqb _ _)|];
                 by injection Hshow as <- <-.
            -- destruct (dircolors.Key W (name info)); [destruct (String.eqb _ _)|];
                 by injection Hshow as <- <-.
            -- by injection Hshow as <- <-.
          * simpl in Hshow.
            destruct (dircolors.Key W (name info)); [destruct (String.eqb _ _)|];
              by injection Hshow as <- <-.
      - unfold ret in Hshow. by injection Hshow as <- <-. }
    destruct o as [shown|msg].
    + unfold bind, modify. intros Hrest. apply IH in Hrest as (l & Hl & Hle & Hlen).
      exists (shown :: l). simpl in *. rewrite Hl, Hout, <- app_assoc. simpl.
      split; [done|]. split; [lia|]. intros Hr. f_equal. auto.
    + intros [= <- <-]. exists []. simpl. rewrite app_nil_r, Hout.
      split; [done|]. split; [lia|]. discriminate.
Qed.

(** Without colours, [WriteAll] returns and writes one line for each record,
    with its name as it is. *)
Lemma WriteAll_loop_plain (W : World) (s : duSlice) (st : State) :
  WriteAll_loop W false s st =
    (Returned tt,
     {| tty := tty st; glog := glog st;
        stdout := (stdout st ++ map (fun info => line_of W info (name info)) s)%list |}).
Proof.
  revert st. induction s as [|info s IH]; intros st; simpl.
  - unfold ret. rewrite app_nil_r. by destruct st.
  - unfold bind, ret, modify. rewrite IH. simpl. by rewrite <- app_assoc.
Qed.

(** When the run ends normally, standard output has gained the lines of the
    sorted records followed by the total, in this order. *)
Lemma main_rendered (sort_Sort : duSlice -> duSlice) (W : World) (st st' : State)
    (ps : list string) (data : string) (s : duSlice) :
  paths W (flag_Args W) = inl ps ->
  execDu W ps = inl data ->
  newDuSlice W data = Returned (inl s) ->
  main sort_Sort W st = (Done, st') ->
  exists shown : list string,
    length shown = length (with_total (sort_Sort s)) /\
    stdout st' = (stdout st ++ zip_with (line_of W) (with_total (sort_Sort s)) shown)%list.
Proof.
  intros Hp Hd Hs. unfold main. rewrite Hp, Hd, Hs.
  destruct (WriteAll W (with_total (sort_Sort s)) st) as [[[]|msg] st1] eqn:Hw;
    [|discriminate].
  intros [= <-]. apply WriteAll_loop_lines in Hw as (shown & Hout & _ & Hlen).
  exists shown. auto.
Qed.

(** ** Sorting *)

Lemma Swap_Permutation (s s' : duSlice) (i j : nat) :
  Swap s i j = Returned s' -> s' ≡ₚ s.
Proof.
  simpl. destruct (s !! i) as [a|] eqn:Hi; [|discriminate].
  destruct (s !! j) as [b|] eqn:Hj; [|discriminate].
  intros [= <-].
  destruct (decide (i = j)) as [->|Hne].
  - replace b with a by congruence.
    rewrite list_insert_insert_eq. by rewrite list_insert_id.
  - apply Permutation_inj. split; [by rewrite !length_insert|].
    exists (fun k => if decide (k = i) then j else if decide (k = j) then i else k).
    split.
    + intros x y. repeat case_decide; congruence.
    + intros k. pose proof (lookup_lt_Some _ _ _ Hi). pose proof (lookup_lt_Some _ _ _ Hj).
      repeat case_decide; subst.
      * rewrite list_lookup_insert_ne, list_lookup_insert_eq by (done || lia). done.
      * rewrite list_lookup_insert_eq by (rewrite length_insert; lia). done.
      * by rewrite !list_lookup_insert_ne.
Qed.




#[local] Instance by_size_trans : Transitive by_size.
Proof. unfold by_size. intros a b c. lia. Qed.

#[local] Instance by_size_total : Total by_size.
Proof. unfold by_size. intros a b. lia. Qed.

#[local] Instance by_size_desc_total : Total by_size_desc.
Proof. unfold by_size_desc. intros a b. lia. Qed.



(** ** The rendered report *)

(** C1 (as amended). For every report that parses, the records handed to the
    renderer are the sorted records followed by one synthesized record named
    "total"; sorting is applied to the parsed records only, so the total
    takes no part in it. The size of the total is the sum of the sizes of the
    other records reduced to a 64-bit signed integer; it is the exact sum
    whenever that sum fits such an integer. When the run ends normally,
    standard output has gained one line for each of these records, in this
    order. *)
Theorem C1_total_last_wrapped_sum (sort_Sort : duSlice -> duSlice) (W : World)
    (st : State) (ps : list string) (data : string) (s : duSlice) :
  paths W (flag_Args W) = inl ps ->
  execDu W ps = inl data ->
  newDuSlice W data = Returned (inl s) ->
  exists t : duInfo,
    with_total (sort_Sort s) = (sort_Sort s ++ [t])%list /\
    name t = "total" /\
    size t = wrap_int (sum_sizes (sort_Sort s)) /\
    (in_int (sum_sizes (sort_Sort s)) -> size t = sum_sizes (sort_Sort s)) /\
    (forall st', main sort_Sort W st = (Done, st') ->
       exists shown : list string,
         length shown = S (length (sort_Sort s)) /\
         stdout st' = (stdout st ++ zip_with (line_of W) (sort_Sort s ++ [t]) shown)%list).
Proof.
  intros Hp Hd Hs.
  exists {| name := "total"; size := total (sort_Sort s); childrenCount := 0 |}.
  split; [done|]. split; [done|]. simpl. split; [apply total_wrap|].
  split.
  - intros Hfit. rewrite total_wrap. by apply wrap_int_small.
  - intros st' Hmain.
    destruct (main_rendered sort_Sort W st st' ps data s Hp Hd Hs Hmain)
      as (shown & Hlen & Hout).
    exists shown. split; [|done].
    rewrite Hlen. unfold with_total. rewrite length_app. simpl. lia.
Qed.

Lemma C1_total_last_wrapped_sum_witness :
  exists t : duInfo,
    with_total (sort_by_size [rec "/tmp" 4096; rec "/tmp/a" 1024])
    = (sort_by_size [rec "/tmp" 4096; rec "/tmp/a" 1024] ++ [t])%list /\
    name t = "total" /\
    size t = wrap_int (sum_sizes (sort_by_size [rec "/tmp" 4096; rec "/tmp/a" 1024])) /\
    (in_int (sum_sizes (sort_by_size [rec "/tmp" 4096; rec "/tmp/a" 1024])) ->
     size t = sum_sizes (sort_by_size [rec "/tmp" 4096; rec "/tmp/a" 1024])) /\
    (forall st', main sort_by_size (with_report quiet report_tmp) init_State = (Done, st') ->
       exists shown : list string,
         length shown = S (length (sort_by_size [rec "/tmp" 4096; rec "/tmp/a" 1024])) /\
         stdout st'
         = (stdout init_State
            ++ zip_with (line_of (with_report quiet report_tmp))
                 (sort_by_size [rec "/tmp" 4096; rec "/tmp/a" 1024] ++ [t]) shown)%list).
Proof.
  apply (C1_total_last_wrapped_sum sort_by_size (with_report quiet report_tmp)
           init_State [] report_tmp [rec "/tmp" 4096; rec "/tmp/a" 1024]);
    reflexivity.
Defined.

(** C1 as stated fails: the total of a report whose sizes add up to 2^63 is
    rendered as -2^63, which is not the sum of the other records. *)
Lemma C1_total_not_exact_sum :
  newDuSlice quiet report_overflow
  = Returned (inl [rec "a" 9223372036854775807; rec "b" 1]) /\
  with_total (sort_by_size [rec "a" 9223372036854775807; rec "b" 1])
  = [rec "b" 1; rec "a" 9223372036854775807; rec "total" (-9223372036854775808)] /\
  sum_sizes [rec "b" 1; rec "a" 9223372036854775807] = 9223372036854775808 /\
  fst (main sort_by_size (with_report quiet report_overflow) init_State) = Done.
Proof. repeat split; vm_compute; reflexivity. Qed.




(** ** Parsing the report *)

(** A line whose first field is no integer is reported, with the line. *)
Lemma newDuSlice_loop_bad_size (W : World) (line : string) (rest : list string)
    (s : duSlice) (items : list string) (item0 : string) (err : error) :
  line <> "" ->
  strings_SplitN TAB line 2 = item0 :: items ->
  strconv_Atoi item0 = inr err ->
  newDuSlice_loop W (line :: rest) s = Returned (inr (ErrUnexpectedFormat line err)).
Proof.
  intros Hline Hitems Herr. simpl.
  destruct (String.eqb_spec line "") as [->|_]; [done|].
  rewrite Hitems. simpl. by rewrite Herr.
Qed.

(** C3, at the failing input. A non-empty line that has no tab and whose
    text is an integer makes [newDuSlice] panic on [items[1]]: no error is
    returned, and the run ends in the panic with nothing written. *)
Theorem C3_line_without_tab_panics (W : World) (sort_Sort : duSlice -> duSlice) :
  strings_SplitN TAB "123" 2 = ["123"] /\
  newDuSlice W ("123" +:+ NL) = Panicked "index out of range" /\
  main sort_Sort (with_report quiet ("123" +:+ NL)) init_State
  = (Crash "index out of range", init_State).
Proof. repeat split. Qed.

(** C8, at the failing input. A line whose size text is a negative integer
    is accepted, and the record it produces has a negative size. *)
Theorem C8_negative_size_accepted (W : World) :
  strconv_Atoi "-5" = inl (-5) /\
  newDuSlice W ("-5" +:+ HT +:+ "/x" +:+ NL)
  = Returned (inl [{| name := "/x"; size := -5; childrenCount := count W "/x" |}]).
Proof. split; reflexivity. Qed.

(** ** The colour database *)

Lemma occurrences_app (c : ascii) (a b : string) :
  occurrences c (a +:+ b) = (occurrences c a + occurrences c b)%nat.
Proof. induction a as [|x a IH]; simpl; [done|]. rewrite IH. lia. Qed.

Lemma cut_Some (c : ascii) (s h t : string) :
  cut c s = Some (h, t) <-> s = h +:+ String c t /\ occurrences c h = O.
Proof.
  revert h. induction s as [|a s IH]; intros h; simpl.
  - split; [done|]. intros [Hs _]. by destruct h.
  - destruct (Ascii.eqb_spec a c) as [->|Hne].
    + split.
      * intros [= <- <-]. done.
      * intros [Hs Hocc]. destruct h as [|b h]; simpl in *.
        -- by injection Hs as ->.
        -- injection Hs as <- _. rewrite Ascii.eqb_refl in Hocc. lia.
    + destruct (cut c s) as [[h' t']|] eqn:Hcut.
      * split.
        -- intros [= <- <-]. destruct (proj1 (IH h') eq_refl) as [-> Hocc].
           simpl. split; [done|]. destruct (Ascii.eqb_spec a c); [congruence|simpl; lia].
        -- intros [Hs Hocc]. destruct h as [|b h]; simpl in *.
           ++ injection Hs as -> _. done.
           ++ injection Hs as <- Hs. destruct (Ascii.eqb a c); [lia|].
              pose proof (proj2 (IH h) (conj Hs Hocc)) as Heq. congruence.
      * split; [done|]. intros [Hs Hocc]. destruct h as [|b h]; simpl in *.
        -- injection Hs as -> _. done.
        -- injection Hs as <- Hs. destruct (Ascii.eqb a c); [lia|].
           pose proof (proj2 (IH h) (conj Hs Hocc)) as Heq. congruence.
Qed.

Lemma cut_None (c : ascii) (s : string) :
  cut c s = None <-> occurrences c s = O.
Proof.
  induction s as [|a s IH]; simpl; [done|].
  destruct (Ascii.eqb a c).
  - split; [done|lia].
  - destruct (cut c s) as [[h t]|].
    + split; [done|]. intros Hocc. by apply IH in Hocc.
    + simpl. split; [intros _; by apply IH|done].
Qed.

(** A pair is split at its first "=", and at no other. *)
Lemma store_pair_cut (m : gmap string string) (pair : string) :
  dircolors.store_pair m pair =
    match cut "=" pair with
    | Some (k, v) => <[k := v]> m
    | None => m
    end.
Proof.
  unfold dircolors.store_pair, strings_SplitN. simpl.
  by destruct (cut "=" pair) as [[k v]|].
Qed.

Lemma fold_store_pair_lookup (l : list string) (m : gmap string string) (k : string) :
  is_Some (fold_left dircolors.store_pair l m !! k) <->
  is_Some (m !! k) \/ exists pair v, pair ∈ l /\ cut "=" pair = Some (k, v).
Proof.
  revert m. induction l as [|p l IH]; intros m; simpl.
  - split; [auto|]. intros [H|(pair & v & Hin & _)]; [done|].
    by apply not_elem_of_nil in Hin.
  - rewrite IH, store_pair_cut. split.
    + intros [Hm|(pair & v & Hin & Hcut)].
      * destruct (cut "=" p) as [[k' v']|] eqn:Hp; [|by left].
        destruct (decide (k' = k)) as [->|Hne].
        -- right. exists p, v'. split; [left|done].
        -- rewrite lookup_insert_ne in Hm by done. by left.
      * right. exists pair, v. split; [by right|done].
    + intros [Hm|(pair & v & Hin & Hcut)].
      * left. destruct (cut "=" p) as [[k' v']|]; [|done].
        destruct (decide (k' = k)) as [->|Hne].
        -- rewrite lookup_insert_eq. by eexists.
        -- by rewrite lookup_insert_ne.
      * apply elem_of_cons in Hin as [->|Hin].
        -- left. rewrite Hcut, lookup_insert_eq. by eexists.
        -- right. by exists pair, v.
Qed.

(** C6 (as amended). A pair of the specification string is stored if and
    only if it contains at least one "=": the code is the text before the
    first "=" and the attribute all the text after it, further "=" included.
    A pair with no "=" is skipped. Hence the database has an entry for a code
    exactly when some pair consists of that code, "=" and any text. *)
Theorem C6_pair_stored_iff_has_eq :
  (forall (m : gmap string string) (pair : string),
     (occurrences "=" pair = O /\ dircolors.store_pair m pair = m) \/
     (exists k v : string,
        pair = k +:+ "=" +:+ v /\ occurrences "=" k = O /\
        dircolors.store_pair m pair = <[k := v]> m)) /\
  (forall s k : string,
     is_Some (dircolors.parse_pairs s !! k) <->
     exists pair v : string,
       pair ∈ strings_Split ":" s /\ pair = k +:+ "=" +:+ v /\ occurrences "=" k = O).
Proof.
  split.
  - intros m pair. rewrite store_pair_cut.
    destruct (cut "=" pair) as [[k v]|] eqn:Hcut.
    + right. exists k, v. apply cut_Some in Hcut as [Hpair Hk]. done.
    + left. by apply cut_None in Hcut.
  - intros s k. unfold dircolors.parse_pairs. rewrite fold_store_pair_lookup.
    rewrite lookup_empty. split.
    + intros [[x Hx]|(pair & v & Hin & Hcut)]; [done|].
      exists pair, v. apply cut_Some in Hcut as [Hpair Hk]. done.
    + intros (pair & v & Hin & Hpair & Hk). right. exists pair, v.
      split; [done|]. apply cut_Some. done.
Qed.

(** C6 as stated fails: the pair "a=b=c" has two "=" and is stored, under
    the code "a" with the attribute "b=c". *)
Lemma C6_two_eq_pair_is_stored :
  occurrences "=" "a=b=c" = 2%nat /\
  dircolors.parse_pairs "a=b=c" !! "a" = Some "b=c" /\
  dircolors.parse_pairs "di=01;34:a=b=c" !! "a" = Some "b=c".
Proof. repeat split; vm_compute; reflexivity. Qed.

(** ** Counting entries *)

Lemma run_events_app (a b : list (option oserror)) (n : Z) :
  run_events (a ++ b) n =
    match run_events a n with
    | (n', None) => run_events b n'
    | (n', Some e) => (n', Some e)
    end.
Proof.
  revert n. induction a as [|[e|] a IH]; intros n; simpl; [done|done|apply IH].
Qed.

Lemma run_events_error (evs : list (option oserror)) (n n' : Z) (err : error) :
  run_events evs n = (n', Some err) -> is_SkipDir err = false.
Proof.
  revert n. induction evs as [|[e|] evs IH]; intros n; simpl.
  - discriminate.
  - by intros [= <- <-].
  - apply IH.
Qed.

Lemma walk_count_events (Join : string -> string -> string) (t : ftree) :
  forall (path : string) (n : Z),
    (exists name info readdir children, t = Node name info readdir children) ->
    walk Join count_walk path t n = run_events (events t) n.
Proof.
  induction t as [name e|name info readdir children IH] using ftree_children_ind;
    intros path n Hnode.
  - destruct Hnode as (? & ? & ? & ? & ?). discriminate.
  - clear Hnode. simpl. destruct (IsDir info); simpl; [|done].
    destruct readdir as [e|]; simpl; [done|].
    generalize (wrap_int (n + 1)). clear n.
    induction IH as [|child rest Hchild Hrest IHrest]; intros n; simpl; [done|].
    destruct child as [cn ce|cn cinfo crd cch].
    + done.
    + rewrite Hchild by eauto. rewrite run_events_app.
      destruct (run_events (events (Node cn cinfo crd cch)) n) as [n' [err|]] eqn:Hr.
      * rewrite (run_events_error _ _ _ _ Hr). by rewrite orb_true_r.
      * apply IHrest.
Qed.

Lemma run_events_count (evs : list (option oserror)) (n : Z) :
  fst (run_events evs (wrap_int n)) = wrap_int (n + Z.of_nat (visited_before_error evs)).
Proof.
  revert n. induction evs as [|[e|] evs IH]; intros n; simpl.
  - f_equal. lia.
  - f_equal. lia.
  - rewrite wrap_int_idem, IH. f_equal. lia.
Qed.

Lemma visited_le_visitable (evs : list (option oserror)) :
  (visited_before_error evs <= length (filter (fun ev => ev = None) evs))%nat.
Proof.
  induction evs as [|[e|] evs IH]; [simpl; lia|simpl; lia|].
  rewrite filter_cons_True by done. simpl. lia.
Qed.

Lemma count_events (W : World) (fpath : string) :
  count W fpath = fst (run_events (events (fs_tree W fpath)) 0).
Proof.
  unfold count, filepath_Walk.
  destruct (fs_tree W fpath) as [name e|name info readdir children] eqn:Ht.
  - done.
  - rewrite walk_count_events by eauto.
    destruct (run_events _ 0) as [n [err|]]; [|done].
    by destruct (is_SkipDir err).
Qed.

(** Without colours, a run that ends normally has logged nothing. *)
Lemma main_plain_log (sort_Sort : duSlice -> duSlice) (W : World) (st st' : State) :
  colorize W = false -> main sort_Sort W st = (Done, st') -> glog st' = glog st.
Proof.
  intros Hc. unfold main, glog_Exit.
  destruct (paths W (flag_Args W)) as [ps|e]; [|discriminate].
  destruct (execDu W ps) as [data|e]; [|discriminate].
  destruct (newDuSlice W data) as [[s|e]|msg]; [|discriminate..].
  unfold WriteAll. rewrite Hc, WriteAll_loop_plain. by intros [= <-].
Qed.

(** C7 (as amended). The count never fails: [count] is a total function. It
    is the number of entries visited before the first error of the walk (as
    an [int]): the walk stops at that error and the entries after it are not
    counted, so the count is at most, and not always, the number of entries
    that can be visited. When the walk cannot start the count is 0. The
    error is dropped and not logged: without colours, a run that ends
    normally leaves the diagnostic stream as it was. *)
Theorem C7_count_stops_at_first_error (W : World) (fpath : string) :
  count W fpath
  = wrap_int (Z.of_nat (visited_before_error (events (fs_tree W fpath)))) /\
  (visited_before_error (events (fs_tree W fpath)) <= visitable (fs_tree W fpath))%nat /\
  (forall name e, fs_tree W fpath = NoStat name e -> count W fpath = 0) /\
  (forall (sort_Sort : duSlice -> duSlice) (st st' : State),
     colorize W = false -> main sort_Sort W st = (Done, st') -> glog st' = glog st).
Proof.
  assert (Hcount : count W fpath
            = wrap_int (Z.of_nat (visited_before_error (events (fs_tree W fpath))))).
  { rewrite count_events. change 0 with (wrap_int 0) at 1.
    by rewrite run_events_count. }
  split; [done|]. split; [apply visited_le_visitable|]. split.
  - intros name e Ht. rewrite Hcount, Ht. reflexivity.
  - intros sort_Sort st st'. apply main_plain_log.
Qed.

Lemma C7_count_stops_at_first_error_witness :
  count world_d "d" = wrap_int (Z.of_nat 2) /\
  count quiet "/x" = 0 /\
  glog (snd (main sort_by_size world_d init_State)) = glog init_State.
Proof.
  split; [|split].
  - apply (proj1 (C7_count_stops_at_first_error world_d "d")).
  - apply (proj1 (proj2 (proj2 (C7_count_stops_at_first_error quiet "/x"))) "/x" ENOENT).
    reflexivity.
  - apply (proj2 (proj2 (proj2 (C7_count_stops_at_first_error world_d "d")))
             sort_by_size init_State); reflexivity.
Defined.

(** C7 as stated fails. In the directory [d] the entry [b] cannot be
    examined; the entry [c] after it can, and is not counted: the count is 2
    (for [d] and [a]) where 3 entries can be visited. And when the walk
    cannot start, the count is 0 and nothing is logged. *)
Lemma C7_walk_stops_mid_way :
  count world_d "d" = 2 /\
  visitable (fs_tree world_d "d") = 3%nat /\
  events (fs_tree world_d "d") = [None; None; Some EACCES; None] /\
  count quiet "/x" = 0 /\
  main sort_by_size (with_report quiet ("7" +:+ HT +:+ "/x" +:+ NL)) init_State
  = (Done,
     {| tty := None; glog := [];
        stdout := [line_of quiet (rec "/x" 7) "/x"; line_of quiet (rec "total" 7) "total"] |}).
Proof. repeat split. Qed.


(** ** Classification *)

Lemma land_pow2 (a n : Z) :
  0 <= n -> Z.land a (2 ^ n) = if Z.testbit a n then 2 ^ n else 0.
Proof.
  intros Hn. apply Z.bits_inj'. intros k Hk.
  rewrite Z.land_spec, Z.pow2_bits_eqb by done.
  destruct (Z.eqb_spec n k) as [->|Hne].
  - destruct (Z.testbit a k); simpl.
    + by rewrite Z.pow2_bits_eqb, Z.eqb_refl.
    + by rewrite Z.testbit_0_l.
  - rewrite andb_false_r. destruct (Z.testbit a n).
    + rewrite Z.pow2_bits_eqb by done. symmetry. by apply Z.eqb_neq.
    + by rewrite Z.testbit_0_l.
Qed.

(** The test [mode & (1 << n) != 0] reads bit [n] of the mode. *)
Lemma has_bit_shift (mode n : Z) :
  0 <= n -> has_bit mode (Z.shiftl 1 n) = Z.testbit mode n.
Proof.
  intros Hn. unfold has_bit. rewrite Z.shiftl_1_l, land_pow2 by done.
  destruct (Z.testbit mode n); [|done].
  apply negb_true_iff, Z.eqb_neq. pose proof (Z.pow_pos_nonneg 2 n). lia.
Qed.

(** The test [mode & 0111 != 0] reads the three execute bits. *)
Lemma has_bit_exec (mode : Z) :
  has_bit mode 73 = Z.testbit mode 6 || Z.testbit mode 3 || Z.testbit mode 0.
Proof.
  unfold has_bit. change 73 with (Z.lor (2 ^ 6) (Z.lor (2 ^ 3) (2 ^ 0))).
  rewrite !Z.land_lor_distr_r, !land_pow2 by lia.
  by destruct (Z.testbit mode 6), (Z.testbit mode 3), (Z.testbit mode 0).
Qed.

(** The classifier follows the priority list, rule by rule. *)
Lemma Key_classify_spec (W : World) (fpath : string) :
  dircolors.Key W fpath = classify_spec W fpath.
Proof.
  unfold dircolors.Key, classify_spec.
  destruct (os_Lstat W fpath) as [info|[| |msg]]; [|done..].
  unfold IsDir, ModeDir, ModeSymlink, ModeNamedPipe, ModeSocket, ModeDevice,
    ModeCharDevice, ModeSetuid, ModeSetgid.
  rewrite !has_bit_shift, has_bit_exec by lia.
  unfold priority_rules, first_match.
  destruct (Z.testbit (Mode info) 31); [done|].
  destruct (Z.testbit (Mode info) 27); [by destruct (os_Readlink W fpath)|].
  destruct (Z.testbit (Mode info) 25); [done|].
  destruct (Z.testbit (Mode info) 24); [done|].
  destruct (Z.testbit (Mode info) 26); [by destruct (Z.testbit (Mode info) 21)|].
  destruct (Z.testbit (Mode info) 23); [done|].
  destruct (Z.testbit (Mode info) 22); [done|].
  destruct (Z.testbit (Mode info) 6 || Z.testbit (Mode info) 3 || Z.testbit (Mode info) 0);
    [done|].
  destruct (Sys info) as [sys|]; [|done].
  destruct (1 <? Nlink sys); [done|].
  by destruct (negb (String.eqb (filepath_Ext fpath) "")).
Qed.



(** ** Colouring names *)






(** ** Path arguments *)

(** C9 (as amended). With no argument the entries of the current directory
    are globbed; with one argument that names a directory, the entries of
    that directory; with one argument that names something else, and with
    two arguments or more, the arguments are passed on as they are. With one
    argument that cannot be examined (one that does not exist, say) the
    resolution fails with the error of [os.Stat], and the run ends with
    status 1 and the diagnostic "Bad args". *)
Theorem C9_paths_resolution (W : World) :
  paths W [] = filepath_Glob W "*" /\
  (forall (first : string) (fi : FileInfo),
     os_Stat W first = inl fi -> IsDir fi = true ->
     paths W [first] = filepath_Glob W (filepath_Join W first "*")) /\
  (forall (first : string) (fi : FileInfo),
     os_Stat W first = inl fi -> IsDir fi = false ->
     paths W [first] = inl [first]) /\
  (forall a b rest, paths W (a :: b :: rest) = inl (a :: b :: rest)) /\
  (forall (first : string) (err : oserror),
     os_Stat W first = inr err -> paths W [first] = inr err) /\
  (forall (sort_Sort : duSlice -> duSlice) (st : State) (err : oserror),
     paths W (flag_Args W) = inr err ->
     main sort_Sort W st = (Exit 1, log (Fatal "Bad args: %s" (OsError err)) st)).
Proof.
  repeat split.
  - intros first fi Hfi Hdir. simpl. by rewrite Hfi, Hdir.
  - intros first fi Hfi Hdir. simpl. by rewrite Hfi, Hdir.
  - intros first err Herr. simpl. by rewrite Herr.
  - intros sort_Sort st err Herr. unfold main. by rewrite Herr.
Qed.

Lemma C9_paths_resolution_witness :
  paths (world_with setuid_dir) ["d"] = filepath_Glob (world_with setuid_dir) "d/*" /\
  paths (world_with exec_two_links) ["f.sh"] = inl ["f.sh"] /\
  paths world_nope ["nope"] = inr ENOENT /\
  main sort_by_size world_nope init_State
  = (Exit 1, log (Fatal "Bad args: %s" (OsError ENOENT)) init_State).
Proof.
  split; [|split; [|split]].
  - apply (proj1 (proj2 (C9_paths_resolution (world_with setuid_dir))) "d" setuid_dir);
      reflexivity.
  - apply (proj1 (proj2 (proj2 (C9_paths_resolution (world_with exec_two_links))))
             "f.sh" exec_two_links); reflexivity.
  - apply (proj1 (proj2 (proj2 (proj2 (proj2 (C9_paths_resolution world_nope))))));
      reflexivity.
  - apply (proj2 (proj2 (proj2 (proj2 (proj2 (C9_paths_resolution world_nope))))));
      reflexivity.
Defined.

(** C9 as stated fails: a single argument that does not exist is not passed
    on; the resolution fails and the run ends with status 1. *)
Lemma C9_missing_single_argument_fails :
  os_Stat world_nope "nope" = inr ENOENT /\
  flag_Args world_nope = ["nope"] /\
  paths world_nope ["nope"] = inr ENOENT /\
  main sort_by_size world_nope init_State
  = (Exit 1,
     {| tty := None; glog := [Fatal "Bad args: %s" (OsError ENOENT)]; stdout := [] |}).
Proof. repeat split. Qed.

(** ** Sizes on output *)

(** C10. The size of a record is converted to [uint64] before it is
    formatted: a negative size [z] is rendered as [z + 2^64], its value
    modulo 2^64, which lies between 2^63 and 2^64. No error arises: the line
    is written like any other. *)
Theorem C10_negative_size_rendered_mod_2_64 (W : World) (info : duInfo)
    (shown : string) (st : State) :
  in_int (size info) -> size info < 0 ->
  to_uint64 (size info) = size info mod 2 ^ 64 /\
  to_uint64 (size info) = size info + 2 ^ 64 /\
  2 ^ 63 <= to_uint64 (size info) < 2 ^ 64 /\
  line_of W info shown
  = Sprintf_line (humanize_IBytes W (size info + 2 ^ 64))
                 (formatCount (childrenCount info)) shown /\
  WriteAll_loop W false [info] st
  = (Returned tt,
     write (Sprintf_line (humanize_IBytes W (size info + 2 ^ 64))
                         (formatCount (childrenCount info)) (name info)) st).
Proof.
  intros Hint Hneg.
  assert (Hconv : to_uint64 (size info) = size info + 2 ^ 64).
  { int_bounds. symmetry. apply (Z.mod_unique _ _ (-1)); lia. }
  split; [done|]. split; [done|]. split.
  - rewrite Hconv. int_bounds. lia.
  - unfold line_of. rewrite Hconv. split; [done|].
    rewrite WriteAll_loop_plain. unfold write, line_of. simpl. by rewrite Hconv.
Qed.

Lemma C10_negative_size_rendered_mod_2_64_witness :
  to_uint64 (-1) = (-1) mod 2 ^ 64 /\
  to_uint64 (-1) = -1 + 2 ^ 64 /\
  2 ^ 63 <= to_uint64 (-1) < 2 ^ 64 /\
  line_of quiet (rec "x" (-1)) "x"
  = Sprintf_line (plain_IBytes (-1 + 2 ^ 64)) (formatCount 0) "x" /\
  WriteAll_loop quiet false [rec "x" (-1)] init_State
  = (Returned tt,
     write (Sprintf_line (plain_IBytes (-1 + 2 ^ 64)) (formatCount 0) "x") init_State).
Proof.
  apply (C10_negative_size_rendered_mod_2_64 quiet (rec "x" (-1)) "x" init_State).
  - split; vm_compute; discriminate.
  - reflexivity.
Defined.

(** * Further properties of the code *)

(** ** The report parser, line by line *)

Lemma SplitN_two (c : ascii) (s : string) :
  strings_SplitN c s 2 =
    match cut c s with
    | Some (h, t) => [h; t]
    | None => [s]
    end.
Proof. unfold strings_SplitN. simpl. by destruct (cut c s) as [[h t]|]. Qed.

Lemma parses_to_cut (W : World) (line : string) (r : duInfo) :
  parses_to W line r <->
  exists h t, cut TAB line = Some (h, t) /\
    strconv_Atoi h = inl (size r) /\ name r = t /\ childrenCount r = count W t.
Proof.
  split.
  - intros (sz & Hline & Hocc & Hsz & Hcount).
    exists sz, (name r). split; [by apply cut_Some|done].
  - intros (h & t & Hcut & Hsz & Hname & Hcount).
    apply cut_Some in Hcut as [Hline Hocc]. exists h. by rewrite Hname.
Qed.

(** What one non-empty line does to the loop: it adds its record, or it ends
    the loop with an error, or with a panic. *)
Lemma newDuSlice_line_cases (W : World) (line : string) :
  line <> "" ->
  (exists r, parses_to W line r /\
     forall rest acc, newDuSlice_loop W (line :: rest) acc
                      = newDuSlice_loop W rest (acc ++ [r])%list) \/
  (exists cause, strconv_Atoi (first_field line) = inr cause /\
     forall rest acc, newDuSlice_loop W (line :: rest) acc
                      = Returned (inr (ErrUnexpectedFormat line cause))) \/
  (occurrences TAB line = O /\ (exists z, strconv_Atoi line = inl z) /\
     forall rest acc, newDuSlice_loop W (line :: rest) acc
                      = Panicked "index out of range").
Proof.
  intros Hline. unfold first_field.
  destruct (cut TAB line) as [[h t]|] eqn:Hcut.
  - destruct (strconv_Atoi h) as [z|cause] eqn:Hz.
    + left. exists {| name := t; size := z; childrenCount := count W t |}. split.
      * apply parses_to_cut. by exists h, t.
      * intros rest acc. simpl. destruct (String.eqb_spec line ""); [done|].
        rewrite SplitN_two, Hcut. simpl. by rewrite Hz.
    + right. left. exists cause. split; [done|]. intros rest acc. simpl.
      destruct (String.eqb_spec line ""); [done|].
      rewrite SplitN_two, Hcut. simpl. by rewrite Hz.
  - destruct (strconv_Atoi line) as [z|cause] eqn:Hz.
    + right. right. split; [by apply cut_None|]. split; [by exists z|].
      intros rest acc. simpl. destruct (String.eqb_spec line ""); [done|].
      rewrite SplitN_two, Hcut. simpl. by rewrite Hz.
    + right. left. exists cause. split; [done|]. intros rest acc. simpl.
      destruct (String.eqb_spec line ""); [done|].
      rewrite SplitN_two, Hcut. simpl. by rewrite Hz.
Qed.

Lemma parses_to_functional (W : World) (line : string) (r r' : duInfo) :
  parses_to W line r -> parses_to W line r' -> r = r'.
Proof.
  rewrite !parses_to_cut.
  intros (h & t & Hcut & Hz & Hn & Hc) (h' & t' & Hcut' & Hz' & Hn' & Hc').
  rewrite Hcut in Hcut'. injection Hcut' as <- <-.
  destruct r, r'. simpl in *. congruence.
Qed.

Lemma parses_to_first_field (W : World) (line : string) (r : duInfo) :
  parses_to W line r -> strconv_Atoi (first_field line) = inl (size r).
Proof.
  rewrite parses_to_cut. intros (h & t & Hcut & Hz & _).
  unfold first_field. by rewrite Hcut.
Qed.

Lemma parses_to_has_tab (W : World) (line : string) (r : duInfo) :
  parses_to W line r -> occurrences TAB line <> O.
Proof.
  rewrite parses_to_cut. intros (h & t & Hcut & _) Hocc.
  apply cut_None in Hocc. congruence.
Qed.

(** The loop runs through a prefix of well-formed lines and collects their
    records. *)
Lemma newDuSlice_loop_prefix (W : World) (before rest : list string) (acc s : duSlice) :
  Forall2 (parses_to W) (filter (fun line => line <> "") before) s ->
  newDuSlice_loop W (before ++ rest) acc = newDuSlice_loop W rest (acc ++ s)%list.
Proof.
  revert acc s. induction before as [|line before IH]; intros acc s Hs.
  - apply Forall2_nil_inv_l in Hs as ->. by rewrite app_nil_r.
  - destruct (decide (line = "")) as [->|Hline].
    + rewrite filter_cons_False in Hs by (intros H; by apply H).
      simpl. by apply IH.
    + rewrite filter_cons_True in Hs by done.
      apply Forall2_cons_inv_l in Hs as (r & s' & Hr & Hs' & ->).
      destruct (newDuSlice_line_cases W line Hline)
        as [(r0 & Hr0 & Hstep)|[(cause & Hbad & _)|(Hocc & _)]].
      * rewrite (parses_to_functional W line r r0 Hr Hr0).
        change ((line :: before) ++ rest)%list with (line :: (before ++ rest))%list.
        rewrite Hstep, (IH _ s') by done. by rewrite <- app_assoc.
      * rewrite (parses_to_first_field W line r Hr) in Hbad. discriminate.
      * by apply parses_to_has_tab in Hr.
Qed.

(** How the loop ends, read off the lines. *)
Lemma newDuSlice_loop_result (W : World) (lines : list string) (acc : duSlice) :
  (exists s, Forall2 (parses_to W) (filter (fun line => line <> "") lines) s /\
     newDuSlice_loop W lines acc = Returned (inl (acc ++ s)%list)) \/
  (exists before line after s,
     lines = (before ++ line :: after)%list /\ line <> "" /\
     Forall2 (parses_to W) (filter (fun line => line <> "") before) s /\
     ((exists cause, strconv_Atoi (first_field line) = inr cause /\
         newDuSlice_loop W lines acc = Returned (inr (ErrUnexpectedFormat line cause))) \/
      (occurrences TAB line = O /\ (exists z, strconv_Atoi line = inl z) /\
         newDuSlice_loop W lines acc = Panicked "index out of range"))).
Proof.
  revert acc. induction lines as [|line lines IH]; intros acc.
  - left. exists []. split; [constructor|]. simpl. by rewrite app_nil_r.
  - destruct (decide (line = "")) as [->|Hline].
    + destruct (IH acc) as [(s & Hs & Hres)|(before & l & after & s & -> & Hl & Hs & Hres)].
      * left. exists s. rewrite filter_cons_False by (intros H; by apply H). done.
      * right. exists ("" :: before), l, after, s.
        rewrite filter_cons_False by (intros H; by apply H). done.
    + destruct (newDuSlice_line_cases W line Hline)
        as [(r & Hr & Hstep)|[(cause & Hbad & Hstep)|(Hocc & Hz & Hstep)]].
      * destruct (IH (acc ++ [r])%list)
          as [(s & Hs & Hres)|(before & l & after & s & -> & Hl & Hs & Hres)].
        -- left. exists (r :: s). rewrite filter_cons_True by done.
           split; [by constructor|]. rewrite Hstep, Hres. by rewrite <- app_assoc.
        -- right. exists (line :: before), l, after, (r :: s).
           rewrite filter_cons_True by done. split; [done|]. split; [done|].
           split; [by constructor|]. by rewrite Hstep.
      * right. exists [], line, lines, [].
        split; [done|]. split; [done|]. split; [constructor|].
        left. exists cause. by rewrite Hstep.
      * right. exists [], line, lines, [].
        split; [done|]. split; [done|]. split; [constructor|].
        right. by rewrite Hstep.
Qed.

Lemma first_field_no_tab (line : string) :
  occurrences TAB line = O -> first_field line = line.
Proof. intros Hocc. apply cut_None in Hocc. unfold first_field. by rewrite Hocc. Qed.

Lemma newDuSlice_parses (W : World) (data : string) (s : duSlice) :
  newDuSlice W data = Returned (inl s) ->
  Forall2 (parses_to W) (report_lines data) s.
Proof.
  unfold newDuSlice, report_lines. intros Hres.
  destruct (newDuSlice_loop_result W (strings_Split LF data) [])
    as [(s0 & Hs0 & Hres0)|(before & l & after & s0 & _ & _ & _ & Hres0)].
  - rewrite Hres in Hres0. by injection Hres0 as ->.
  - rewrite Hres in Hres0.
    destruct Hres0 as [(cause & _ & ?)|(_ & _ & ?)]; discriminate.
Qed.

(** X1. [newDuSlice] returns a slice exactly when every non-empty line of
    the report is well formed (the text of an integer, a tab, a name); the
    slice then holds the records of these lines, one for each, in the order
    of the report. *)
Theorem X1_newDuSlice_success (W : World) (data : string) (s : duSlice) :
  newDuSlice W data = Returned (inl s) <->
  Forall2 (parses_to W) (report_lines data) s.
Proof.
  split; [apply newDuSlice_parses|].
  unfold newDuSlice, report_lines.
  - intros Hs.
    rewrite <- (app_nil_r (strings_Split LF data)).
    by rewrite (newDuSlice_loop_prefix W _ [] [] s Hs).
Qed.

(** X2. [newDuSlice] returns an error exactly when the first non-empty line
    that is not well formed has a first field that [strconv.Atoi] rejects;
    the error carries that line and the cause. The lines after it are not
    looked at. *)
Theorem X2_newDuSlice_error (W : World) (data : string) (e : error) :
  newDuSlice W data = Returned (inr e) <->
  exists (before : list string) (line : string) (after : list string)
         (s : duSlice) (cause : error),
    strings_Split LF data = (before ++ line :: after)%list /\
    line <> "" /\
    Forall2 (parses_to W) (filter (fun l => l <> "") before) s /\
    strconv_Atoi (first_field line) = inr cause /\
    e = ErrUnexpectedFormat line cause.
Proof.
  unfold newDuSlice. split.
  - intros Hres.
    destruct (newDuSlice_loop_result W (strings_Split LF data) [])
      as [(s0 & _ & Hres0)|(before & l & after & s0 & Hsplit & Hl & Hs0 & Hres0)].
    + rewrite Hres in Hres0. discriminate.
    + rewrite Hres in Hres0. destruct Hres0 as [(cause & Hbad & Heq)|(_ & _ & ?)];
        [|discriminate].
      injection Heq as ->. by exists before, l, after, s0, cause.
  - intros (before & line & after & s & cause & -> & Hline & Hs & Hbad & ->).
    rewrite (newDuSlice_loop_prefix W before (line :: after) [] s Hs).
    destruct (newDuSlice_line_cases W line Hline)
      as [(r & Hr & _)|[(cause' & Hbad' & Hstep)|(Hocc & (z & Hz) & _)]].
    + rewrite (parses_to_first_field W line r Hr) in Hbad. discriminate.
    + rewrite Hstep. congruence.
    + rewrite (first_field_no_tab line Hocc) in Hbad. congruence.
Qed.

(** X3. [newDuSlice] panics exactly when the first non-empty line that is
    not well formed has no tab and is the text of an integer: the size is
    parsed, and the name is then read from a field that does not exist. *)
Theorem X3_newDuSlice_panic (W : World) (data : string) (msg : string) :
  newDuSlice W data = Panicked msg <->
  msg = "index out of range" /\
  exists (before : list string) (line : string) (after : list string)
         (s : duSlice) (z : Z),
    strings_Split LF data = (before ++ line :: after)%list /\
    Forall2 (parses_to W) (filter (fun l => l <> "") before) s /\
    occurrences TAB line = O /\
    strconv_Atoi line = inl z.
Proof.
  unfold newDuSlice. split.
  - intros Hres.
    destruct (newDuSlice_loop_result W (strings_Split LF data) [])
      as [(s0 & _ & Hres0)|(before & l & after & s0 & Hsplit & Hl & Hs0 & Hres0)].
    + rewrite Hres in Hres0. discriminate.
    + rewrite Hres in Hres0.
      destruct Hres0 as [(cause & _ & ?)|(Hocc & (z & Hz) & Heq)]; [discriminate|].
      injection Heq as ->. split; [done|]. by exists before, l, after, s0, z.
  - intros (-> & before & line & after & s & z & -> & Hs & Hocc & Hz).
    rewrite (newDuSlice_loop_prefix W before (line :: after) [] s Hs).
    assert (Hline : line <> "") by (intros ->; discriminate).
    destruct (newDuSlice_line_cases W line Hline)
      as [(r & Hr & _)|[(cause' & Hbad' & _)|(_ & _ & Hstep)]].
    + by apply parses_to_has_tab in Hr.
    + rewrite (first_field_no_tab line Hocc) in Hbad'. congruence.
    + apply Hstep.
Qed.

Lemma digit_val_range (a : ascii) (d : Z) : digit_val a = Some d -> 0 <= d <= 9.
Proof.
  unfold digit_val.
  destruct (48 <=? Z.of_N (N_of_ascii a)) eqn:Hlo; [|discriminate].
  destruct (Z.of_N (N_of_ascii a) <=? 57) eqn:Hhi; [|discriminate].
  simpl. intros [= <-]. lia.
Qed.

Lemma ParseUint_loop_nonneg (s : string) (n un : Z) :
  0 <= n -> ParseUint_loop s n = inl un -> 0 <= un.
Proof.
  revert n. induction s as [|c s IH]; intros n Hn; simpl.
  - by intros [= <-].
  - destruct (digit_val c) as [d|] eqn:Hd; [|discriminate].
    apply digit_val_range in Hd.
    destruct (maxUint64 <? n * 10 + d); [discriminate|]. apply IH. lia.
Qed.

(** What [strconv.Atoi] returns fits an [int]. *)
Lemma Atoi_in_int (s : string) (z : Z) : strconv_Atoi s = inl z -> in_int z.
Proof.
  unfold strconv_Atoi. destruct s as [|a r]; [discriminate|].
  set (body := if Ascii.eqb a "-" || Ascii.eqb a "+" then r else String a r).
  destruct body as [|b body'] eqn:Hbody; [discriminate|].
  destruct (ParseUint_loop (String b body') 0) as [un|e] eqn:Hun; [|discriminate].
  apply ParseUint_loop_nonneg in Hun; [|lia].
  destruct (Ascii.eqb a "-"); simpl.
  - destruct (- minInt <? un) eqn:Hcut; [discriminate|].
    apply Z.ltb_ge in Hcut. intros [= <-]. int_bounds. lia.
  - destruct (maxInt <? un) eqn:Hcut; [discriminate|].
    apply Z.ltb_ge in Hcut. intros [= <-]. int_bounds. lia.
Qed.

(** X4. Every record that [newDuSlice] returns has a size within the range
    of [int], the count of children that [count] gives for its name, and
    there are as many records as the report has non-empty lines. *)
Theorem X4_newDuSlice_records (W : World) (data : string) (s : duSlice) :
  newDuSlice W data = Returned (inl s) ->
  Forall (fun r => in_int (size r) /\ childrenCount r = count W (name r)) s /\
  length s = length (report_lines data).
Proof.
  intros Hs. apply newDuSlice_parses in Hs.
  split; [|symmetry; by eapply Forall2_length].
  induction Hs as [|line r lines s (sz & _ & _ & Hsz & Hcount) Hs IH]; constructor;
    [|done].
  split; [by eapply Atoi_in_int|done].
Qed.

Lemma X4_newDuSlice_records_witness :
  Forall (fun r => in_int (size r) /\ childrenCount r = count quiet (name r))
    [rec "/tmp" 4096; rec "/tmp/a" 1024] /\
  length [rec "/tmp" 4096; rec "/tmp/a" 1024] = length (report_lines report_tmp).
Proof.
  apply (X4_newDuSlice_records quiet report_tmp [rec "/tmp" 4096; rec "/tmp/a" 1024]).
  reflexivity.
Defined.

(** ** The slice as a [sort.Interface], and its total *)

Lemma sum_sizes_Permutation (s s' : duSlice) : s ≡ₚ s' -> sum_sizes s = sum_sizes s'.
Proof.
  induction 1 as [|x s s' _ IH|x y s|s s' s'' _ IH1 _ IH2]; simpl; lia.
Qed.

Lemma sum_sizes_app (s t : duSlice) : sum_sizes (s ++ t) = sum_sizes s + sum_sizes t.
Proof. induction s as [|x s IH]; simpl; lia. Qed.

(** X5. The total does not depend on the order of the records: rearranged
    slices have the same total, so sorting before summing changes nothing.
    The total of a concatenation is the sum of the two totals, as an [int],
    and a total always lies within the range of [int]. *)
Theorem X5_total_order_independent (s s' t : duSlice) :
  s ≡ₚ s' ->
  total s = total s' /\
  total (s ++ t) = wrap_int (total s + total t) /\
  in_int (total s).
Proof.
  intros Hperm. rewrite !total_wrap. split; [|split].
  - f_equal. by apply sum_sizes_Permutation.
  - rewrite sum_sizes_app, wrap_int_idem.
    rewrite (Z.add_comm (sum_sizes s) (wrap_int (sum_sizes t))), wrap_int_idem.
    f_equal. lia.
  - apply wrap_int_range.
Qed.

Lemma X5_total_order_independent_witness :
  total [rec "a" 2; rec "b" 2; rec "c" 1] = total [rec "c" 1; rec "b" 2; rec "a" 2] /\
  total ([rec "a" 2; rec "b" 2; rec "c" 1] ++ [rec "d" 9])
  = wrap_int (total [rec "a" 2; rec "b" 2; rec "c" 1] + total [rec "d" 9]) /\
  in_int (total [rec "a" 2; rec "b" 2; rec "c" 1]).
Proof.
  apply (X5_total_order_independent [rec "a" 2; rec "b" 2; rec "c" 1]
           [rec "c" 1; rec "b" 2; rec "a" 2] [rec "d" 9]).
  apply (Permutation_rev [rec "a" 2; rec "b" 2; rec "c" 1]).
Defined.

(** X6. [Swap(i, j)] panics exactly when an index is out of range. When it
    returns, the slice has the same length, the records at [i] and [j] have
    changed places, every other record is where it was, and a second
    [Swap(i, j)] gives the first slice back. *)
Theorem X6_Swap_exchanges (s : list duInfo) (i j : nat) :
  ((i < Len s)%nat /\ (j < Len s)%nat <-> exists s', Swap s i j = Returned s') /\
  (forall s', Swap s i j = Returned s' ->
     Len s' = Len s /\
     s' !! i = s !! j /\ s' !! j = s !! i /\
     (forall k, k <> i -> k <> j -> s' !! k = s !! k) /\
     Swap s' i j = Returned s).
Proof.
  simpl. split.
  - split.
    + intros [Hi Hj].
      destruct (lookup_lt_is_Some_2 s i Hi) as [a ->].
      destruct (lookup_lt_is_Some_2 s j Hj) as [b ->]. by eexists.
    + intros [s' Hs'].
      destruct (s !! i) as [a|] eqn:Hi; [|discriminate].
      destruct (s !! j) as [b|] eqn:Hj; [|discriminate].
      split; eapply lookup_lt_Some; eassumption.
  - intros s'.
    destruct (s !! i) as [a|] eqn:Hi; [|discriminate].
    destruct (s !! j) as [b|] eqn:Hj; [|discriminate].
    intros [= <-].
    pose proof (lookup_lt_Some _ _ _ Hi) as Hli.
    pose proof (lookup_lt_Some _ _ _ Hj) as Hlj.
    assert (Hati : <[j:=a]> (<[i:=b]> s) !! i = Some b).
    { destruct (decide (i = j)) as [->|Hne].
      - rewrite list_lookup_insert_eq by (rewrite length_insert; lia). congruence.
      - rewrite list_lookup_insert_ne, list_lookup_insert_eq by (done || lia). done. }
    assert (Hatj : <[j:=a]> (<[i:=b]> s) !! j = Some a).
    { rewrite list_lookup_insert_eq by (rewrite length_insert; lia). done. }
    split; [by rewrite !length_insert|]. split; [done|]. split; [done|]. split.
    + intros k Hki Hkj. by rewrite !list_lookup_insert_ne.
    + rewrite Hati, Hatj. f_equal.
      apply list_eq. intros k.
      destruct (decide (k = j)) as [->|Hkj].
      * rewrite list_lookup_insert_eq by (rewrite !length_insert; lia). done.
      * rewrite list_lookup_insert_ne by done.
        destruct (decide (k = i)) as [->|Hki].
        -- rewrite list_lookup_insert_eq by (rewrite !length_insert; lia). done.
        -- by rewrite !list_lookup_insert_ne.
Qed.

Lemma X6_Swap_exchanges_witness :
  Len [rec "c" 1; rec "b" 2; rec "a" 2] = Len [rec "a" 2; rec "b" 2; rec "c" 1] /\
  [rec "c" 1; rec "b" 2; rec "a" 2] !! 0%nat = [rec "a" 2; rec "b" 2; rec "c" 1] !! 2%nat /\
  [rec "c" 1; rec "b" 2; rec "a" 2] !! 2%nat = [rec "a" 2; rec "b" 2; rec "c" 1] !! 0%nat /\
  (forall k : nat, k <> 0%nat -> k <> 2%nat ->
     [rec "c" 1; rec "b" 2; rec "a" 2] !! k = [rec "a" 2; rec "b" 2; rec "c" 1] !! k) /\
  Swap [rec "c" 1; rec "b" 2; rec "a" 2] 0 2 = Returned [rec "a" 2; rec "b" 2; rec "c" 1].
Proof.
  apply (proj2 (X6_Swap_exchanges [rec "a" 2; rec "b" 2; rec "c" 1] 0 2)).
  reflexivity.
Defined.

(** X7. On indices within range, [Less] is a strict weak order, as
    [sort.Sort] needs it: no record is less than itself, [Less] is
    transitive, and so is being not less in either direction (having equal
    sizes). Out of range it panics. *)
Theorem X7_Less_strict_weak_order (s : list duInfo) (i j k : nat) :
  ((i < Len s)%nat /\ (j < Len s)%nat <-> exists b, Less s i j = Returned b) /\
  Less s i i <> Returned true /\
  (Less s i j = Returned true -> Less s j k = Returned true ->
   Less s i k = Returned true) /\
  (Less s i j = Returned false -> Less s j i = Returned false ->
   Less s j k = Returned false -> Less s k j = Returned false ->
   Less s i k = Returned false /\ Less s k i = Returned false).
Proof.
  simpl. split; [|split; [|split]].
  - split.
    + intros [Hi Hj].
      destruct (lookup_lt_is_Some_2 s i Hi) as [a ->].
      destruct (lookup_lt_is_Some_2 s j Hj) as [b ->]. by eexists.
    + intros [b Hb].
      destruct (s !! i) as [x|] eqn:Hi; [|discriminate].
      destruct (s !! j) as [y|] eqn:Hj; [|discriminate].
      split; eapply lookup_lt_Some; eassumption.
  - destruct (s !! i) as [a|]; [|discriminate].
    intros [= H]. apply Z.ltb_lt in H. lia.
  - destruct (s !! i) as [a|], (s !! j) as [b|], (s !! k) as [c|]; try discriminate.
    intros [= H1] [= H2]. f_equal. apply Z.ltb_lt in H1, H2. apply Z.ltb_lt. lia.
  - destruct (s !! i) as [a|], (s !! j) as [b|], (s !! k) as [c|]; try discriminate.
    intros [= H1] [= H2] [= H3] [= H4].
    apply Z.ltb_ge in H1, H2, H3, H4.
    split; f_equal; apply Z.ltb_ge; lia.
Qed.

Lemma X7_Less_strict_weak_order_witness :
  Less [rec "c" 1; rec "b" 2; rec "a" 3] 0 2 = Returned true.
Proof.
  apply (proj1 (proj2 (proj2 (X7_Less_strict_weak_order
                                [rec "c" 1; rec "b" 2; rec "a" 3] 0 1 2))));
    reflexivity.
Defined.

(** ** Reading the colour specification *)

Lemma length_append (a b : string) :
  String.length (a +:+ b) = (String.length a + String.length b)%nat.
Proof. induction a as [|x a IH]; simpl; [done|]. by rewrite IH. Qed.

Lemma substring_prefix (b c : string) :
  String.substring 0 (String.length b) (b +:+ c) = b.
Proof.
  induction b as [|x b IH]; simpl.
  - by destruct c.
  - by rewrite IH.
Qed.

Lemma substring_middle (a b c : string) :
  String.substring (String.length a) (String.length b) (a +:+ b +:+ c) = b.
Proof.
  induction a as [|x a IH].
  - apply (substring_prefix b c).
  - apply IH.
Qed.

Lemma append_assoc (a b c : string) : (a +:+ b) +:+ c = a +:+ b +:+ c.
Proof.
  induction a as [|x a IH]; [done|].
  change (String x ((a +:+ b) +:+ c) = String x (a +:+ b +:+ c)). by rewrite IH.
Qed.

(** Slicing out the middle of three strings. *)
Lemma slice_middle (a b c : string) :
  slice (a +:+ b +:+ c) (Z.of_nat (String.length a))
        (Z.of_nat (String.length a) + Z.of_nat (String.length b))
  = Returned b.
Proof.
  unfold slice. rewrite !length_append.
  destruct (Z.leb_spec 0 (Z.of_nat (String.length a))); [|lia].
  destruct (Z.leb_spec (Z.of_nat (String.length a))
              (Z.of_nat (String.length a) + Z.of_nat (String.length b))); [|lia].
  destruct (Z.leb_spec (Z.of_nat (String.length a) + Z.of_nat (String.length b))
              (Z.of_nat (String.length a + (String.length b + String.length c))));
    [|lia].
  simpl. f_equal.
  replace (Z.to_nat (Z.of_nat (String.length a) + Z.of_nat (String.length b)
                     - Z.of_nat (String.length a)))
    with (String.length b) by lia.
  rewrite Nat2Z.id. apply substring_middle.
Qed.

Lemma Index_none (c : ascii) (s : string) :
  occurrences c s = O -> strings_Index c s = -1.
Proof.
  induction s as [|a s IH]; simpl; [done|].
  destruct (Ascii.eqb a c); [lia|]. intros Hocc. by rewrite IH.
Qed.

Lemma Index_first (c : ascii) (a r : string) :
  occurrences c a = O ->
  strings_Index c (a +:+ String c r) = Z.of_nat (String.length a).
Proof.
  induction a as [|x a IH]; simpl.
  - by rewrite Ascii.eqb_refl.
  - destruct (Ascii.eqb x c); [lia|]. intros Hocc. rewrite IH by done.
    destruct (Z.ltb_spec (Z.of_nat (String.length a)) 0); lia.
Qed.

Lemma LastIndex_none (c : ascii) (s : string) :
  occurrences c s = O -> strings_LastIndex c s = -1.
Proof.
  induction s as [|a s IH]; simpl; [done|].
  destruct (Ascii.eqb a c); [lia|]. intros Hocc. by rewrite IH.
Qed.

Lemma LastIndex_last (c : ascii) (p q : string) :
  occurrences c q = O ->
  strings_LastIndex c (p +:+ String c q) = Z.of_nat (String.length p).
Proof.
  intros Hq. induction p as [|x p IH]; simpl.
  - by rewrite LastIndex_none, Ascii.eqb_refl.
  - rewrite IH. destruct (Z.leb_spec 0 (Z.of_nat (String.length p))); lia.
Qed.

(** X8. [execDircolors] on what [dircolors -b] prints: with no single quote
    in it, the error "bad format" carrying the text; with two or more, the
    text between the first and the last of them. *)
Theorem X8_execDircolors_quoted (W : World) :
  (forall data : string,
     dircolors_Output W = inl data -> occurrences "'" data = O ->
     dircolors.execDircolors W = Returned (inr (ErrBadFormat data))) /\
  (forall a b c : string,
     dircolors_Output W = inl (a +:+ "'" +:+ b +:+ "'" +:+ c) ->
     occurrences "'" a = O -> occurrences "'" c = O ->
     dircolors.execDircolors W = Returned (inl b)).
Proof.
  split.
  - intros data Hout Hocc. unfold dircolors.execDircolors.
    by rewrite Hout, Index_none.
  - intros a b c Hout Ha Hc.
    set (data := a +:+ "'" +:+ b +:+ "'" +:+ c) in *.
    assert (Hidx : strings_Index "'" data = Z.of_nat (String.length a)).
    { apply (Index_first "'" a (b +:+ String "'" c) Ha). }
    assert (Hlast : strings_LastIndex "'" data
                    = Z.of_nat (String.length a) + 1 + Z.of_nat (String.length b)).
    { replace data with ((a +:+ String "'" b) +:+ String "'" c)
        by (unfold data; by rewrite append_assoc).
      rewrite (LastIndex_last "'" _ c Hc), length_append. simpl. lia. }
    assert (Hslice : slice data (Z.of_nat (String.length a) + 1)
                       (Z.of_nat (String.length a) + 1 + Z.of_nat (String.length b))
                     = Returned b).
    { replace data with ((a +:+ "'") +:+ b +:+ String "'" c)
        by (unfold data; by rewrite append_assoc).
      replace (Z.of_nat (String.length a) + 1)
        with (Z.of_nat (String.length (a +:+ "'")))
        by (rewrite length_append; simpl; lia).
      apply slice_middle. }
    unfold dircolors.execDircolors. rewrite Hout, Hidx, Hlast.
    destruct (Z.eqb_spec (Z.of_nat (String.length a)) (-1)); [lia|].
    destruct (Z.eqb_spec (Z.of_nat (String.length a) + 1 + Z.of_nat (String.length b))
                (-1)); [lia|].
    simpl orb. cbv iota. by rewrite Hslice.
Qed.

Lemma X8_execDircolors_quoted_witness :
  dircolors.execDircolors (world_dircolors (inl dircolors_b) "")
  = Returned (inl "di=01;34:ln=01;36") /\
  dircolors.execDircolors (world_dircolors (inl "no colours") "")
  = Returned (inr (ErrBadFormat "no colours")).
Proof.
  split.
  - apply (proj2 (X8_execDircolors_quoted (world_dircolors (inl dircolors_b) ""))
             "LS_COLORS=" "di=01;34:ln=01;36"
             (";" +:+ NL +:+ "export LS_COLORS" +:+ NL)); reflexivity.
  - apply (proj1 (X8_execDircolors_quoted (world_dircolors (inl "no colours") ""))
             "no colours"); reflexivity.
Defined.

(** X9. When what [dircolors -b] prints has exactly one single quote, the
    slice expression of [execDircolors] panics. With an empty [LS_COLORS]
    and no database cached yet, [ForTTY] then panics too, and a run with
    colours ends in this panic before it has written a line. *)
Theorem X9_single_quote_panics (W : World) (a c : string) :
  dircolors_Output W = inl (a +:+ "'" +:+ c) ->
  occurrences "'" a = O -> occurrences "'" c = O ->
  dircolors.execDircolors W = Panicked "slice bounds out of range" /\
  (forall (fpath : string) (st : State),
     LS_COLORS W = "" -> tty st = None ->
     dircolors.ForTTY W fpath st = (Panicked "slice bounds out of range", st)) /\
  (forall (sort_Sort : duSlice -> duSlice) (st : State) (ps : list string)
          (data : string) (s : duSlice),
     LS_COLORS W = "" -> tty st = None -> colorize W = true ->
     paths W (flag_Args W) = inl ps -> execDu W ps = inl data ->
     newDuSlice W data = Returned (inl s) ->
     main sort_Sort W st = (Crash "slice bounds out of range", st)).
Proof.
  intros Hout Ha Hc.
  assert (Hexec : dircolors.execDircolors W = Panicked "slice bounds out of range").
  { unfold dircolors.execDircolors. rewrite Hout.
    change (a +:+ "'" +:+ c) with (a +:+ String "'" c).
    rewrite (Index_first "'" a c Ha), (LastIndex_last "'" a c Hc).
    destruct (Z.eqb_spec (Z.of_nat (String.length a)) (-1)); [lia|].
    simpl orb. cbv iota. unfold slice.
    destruct (Z.leb_spec (Z.of_nat (String.length a) + 1) (Z.of_nat (String.length a)));
      [lia|].
    by rewrite andb_false_r. }
  assert (HTTY : forall fpath st, LS_COLORS W = "" -> tty st = None ->
            dircolors.ForTTY W fpath st = (Panicked "slice bounds out of range", st)).
  { intros fpath st Hls Htty.
    unfold dircolors.ForTTY, dircolors.parseDircolors, bind, get, lift.
    by rewrite Htty, Hls, Hexec. }
  split; [done|]. split; [done|].
  intros sort_Sort st ps data s Hls Htty Hcol Hp Hd Hs.
  unfold main. rewrite Hp, Hd, Hs. unfold WriteAll, with_total. rewrite Hcol.
  destruct (sort_Sort s) as [|r rest]; simpl; unfold bind at 1; by rewrite HTTY.
Qed.

Lemma X9_single_quote_panics_witness :
  dircolors.execDircolors (world_dircolors (inl "LS_COLORS='") report_tmp)
  = Panicked "slice bounds out of range" /\
  main sort_by_size (world_dircolors (inl "LS_COLORS='") report_tmp) init_State
  = (Crash "slice bounds out of range", init_State).
Proof.
  destruct (X9_single_quote_panics (world_dircolors (inl "LS_COLORS='") report_tmp)
              "LS_COLORS=" "" eq_refl eq_refl eq_refl) as (Hexec & _ & Hmain).
  split; [exact Hexec|].
  apply (Hmain sort_by_size init_State [] report_tmp
           [rec "/tmp" 4096; rec "/tmp/a" 1024]); reflexivity.
Defined.

(** ** The cached colour database *)

Lemma ForTTY_cached (W : World) (fpath : string) (st : State) (m : gmap string string) :
  tty st = Some m ->
  dircolors.ForTTY W fpath st =
    (Returned
       match dircolors.Key W fpath with
       | inr _ => fpath
       | inl key =>
           if String.eqb (dircolors.map_index m key) "" then fpath
           else ESC_wrap (dircolors.map_index m key) fpath
       end, st).
Proof.
  intros Hm. unfold dircolors.ForTTY, bind, get, ret. rewrite Hm.
  destruct (dircolors.Key W fpath) as [key|e]; [|done].
  by destruct (String.eqb _ _).
Qed.

(** X10. [ForTTY] builds the colour database at most once: when a call
    returns, the database is cached, standard output is untouched, and
    every later call returns without changing the state at all. *)
Theorem X10_ForTTY_builds_database_once (W : World) (fpath : string)
    (st st' : State) (shown : string) :
  dircolors.ForTTY W fpath st = (Returned shown, st') ->
  is_Some (tty st') /\ stdout st' = stdout st /\
  (is_Some (tty st) -> st' = st) /\
  (forall fpath', exists shown',
     dircolors.ForTTY W fpath' st' = (Returned shown', st')).
Proof.
  intros Hcall.
  assert (Hst : is_Some (tty st') /\ stdout st' = stdout st /\ (is_Some (tty st) -> st' = st)).
  { destruct (tty st) as [m|] eqn:Hm.
    - rewrite (ForTTY_cached W fpath st m Hm) in Hcall. injection Hcall as _ <-.
      rewrite Hm. by eauto.
    - unfold dircolors.ForTTY, dircolors.parseDircolors, bind, get, ret, modify, lift
        in Hcall.
      rewrite Hm in Hcall.
      destruct (String.eqb (LS_COLORS W) "");
        [destruct (dircolors.execDircolors W) as [[x|err]|msg]|];
        simpl in Hcall; try discriminate;
        (destruct (dircolors.Key W fpath); [destruct (String.eqb _ _)|]);
        injection Hcall as _ <-; simpl;
        (split; [by eexists|]); (split; [done|]); by intros [? ?]. }
  destruct Hst as ([m Hm] & Hout & Hsame). split; [by eexists|].
  split; [done|]. split; [done|].
  intros fpath'. eexists. by apply ForTTY_cached.
Qed.

Lemma X10_ForTTY_builds_database_once_witness :
  is_Some (tty (snd (dircolors.ForTTY world_nolink "f" init_State))) /\
  stdout (snd (dircolors.ForTTY world_nolink "f" init_State)) = stdout init_State /\
  (is_Some (tty init_State) -> snd (dircolors.ForTTY world_nolink "f" init_State) = init_State) /\
  (forall fpath', exists shown',
     dircolors.ForTTY world_nolink fpath' (snd (dircolors.ForTTY world_nolink "f" init_State))
     = (Returned shown', snd (dircolors.ForTTY world_nolink "f" init_State))).
Proof.
  apply (X10_ForTTY_builds_database_once world_nolink "f" init_State _ "f").
  reflexivity.
Defined.

(** What [ForTTY] returns is read off the database that is cached when it
    returns. *)
Lemma ForTTY_result (W : World) (fpath : string) (st st' : State) (shown : string) :
  dircolors.ForTTY W fpath st = (Returned shown, st') ->
  exists m : gmap string string,
    tty st' = Some m /\
    shown = match dircolors.Key W fpath with
            | inr _ => fpath
            | inl key =>
                if String.eqb (dircolors.map_index m key) "" then fpath
                else ESC_wrap (dircolors.map_index m key) fpath
            end.
Proof.
  intros Hcall. destruct (tty st) as [m|] eqn:Hm.
  - rewrite (ForTTY_cached W fpath st m Hm) in Hcall. injection Hcall as <- <-.
    by exists m.
  - unfold dircolors.ForTTY, dircolors.parseDircolors, bind, get, ret, modify, lift
      in Hcall.
    rewrite Hm in Hcall.
    destruct (String.eqb (LS_COLORS W) "");
      [destruct (dircolors.execDircolors W) as [[x|err]|msg]|];
      simpl in Hcall; try discriminate;
      (destruct (dircolors.Key W fpath); [destruct (String.eqb _ _) eqn:Hattr|]);
      injection Hcall as <- <-; simpl; eexists; (split; [done|]);
      rewrite ?Hattr; done.
Qed.

(** X11. [ForTTY] never changes the path it is given: it returns the path
    as it is, or the path between the escape sequences ["ESC[" attr "m"] and
    ["ESC[0m"], where [attr] is the attribute, not empty, that the cached
    database holds for the code of the path. *)
Theorem X11_ForTTY_wraps_path (W : World) (fpath : string) (st st' : State)
    (shown : string) :
  dircolors.ForTTY W fpath st = (Returned shown, st') ->
  shown = fpath \/
  exists (m : gmap string string) (key attr : string),
    tty st' = Some m /\ dircolors.Key W fpath = inl key /\
    m !! key = Some attr /\ attr <> "" /\
    shown = ESC_wrap attr fpath.
Proof.
  intros Hcall. apply ForTTY_result in Hcall as (m & Hm & ->).
  destruct (dircolors.Key W fpath) as [key|e]; [|by left].
  unfold dircolors.map_index.
  destruct (m !! key) as [attr|] eqn:Hattr; simpl; [|by left].
  destruct (String.eqb_spec attr "") as [->|Hne]; [by left|].
  right. by exists m, key, attr.
Qed.

Lemma X11_ForTTY_wraps_path_witness :
  fst (dircolors.ForTTY (world_dircolors (inl dircolors_b) "") "d" init_State)
  = Returned (ESC_wrap "01;34" "d") /\
  (ESC_wrap "01;34" "d" = "d" \/
   exists (m : gmap string string) (key attr : string),
     tty (snd (dircolors.ForTTY (world_dircolors (inl dircolors_b) "") "d" init_State))
     = Some m /\
     dircolors.Key (world_dircolors (inl dircolors_b) "") "d" = inl key /\
     m !! key = Some attr /\ attr <> "" /\
     ESC_wrap "01;34" "d" = ESC_wrap attr "d").
Proof.
  split; [reflexivity|].
  apply (X11_ForTTY_wraps_path (world_dircolors (inl dircolors_b) "") "d" init_State
           (snd (dircolors.ForTTY (world_dircolors (inl dircolors_b) "") "d" init_State))
           (ESC_wrap "01;34" "d")).
  reflexivity.
Defined.

(** X12. With an empty [LS_COLORS] and no usable output of [dircolors -b]
    (the command fails, or prints no single quote), the first call of
    [ForTTY] logs one warning and caches an empty database; that call and
    every later one return the path as it is. *)
Theorem X12_no_colour_source (W : World) (st : State) (err : error) :
  LS_COLORS W = "" -> tty st = None ->
  dircolors.execDircolors W = Returned (inr err) ->
  forall fpath fpath' : string,
    dircolors.ForTTY W fpath st
    = (Returned fpath,
       {| tty := Some ∅;
          glog := (glog st ++ [Warning "no dircolor support: %s" err])%list;
          stdout := stdout st |}) /\
    dircolors.ForTTY W fpath'
      {| tty := Some ∅;
         glog := (glog st ++ [Warning "no dircolor support: %s" err])%list;
         stdout := stdout st |}
    = (Returned fpath',
       {| tty := Some ∅;
          glog := (glog st ++ [Warning "no dircolor support: %s" err])%list;
          stdout := stdout st |}).
Proof.
  intros Hls Htty Hexec fpath fpath'. split.
  - unfold dircolors.ForTTY, dircolors.parseDircolors, bind, get, ret, modify, lift.
    rewrite Htty, Hls, Hexec. simpl.
    change (dircolors.parse_pairs "") with (∅ : gmap string string).
    destruct (dircolors.Key W fpath) as [key|e]; [|done].
    unfold dircolors.map_index. by rewrite lookup_empty.
  - rewrite (ForTTY_cached W fpath' _ ∅) by done.
    destruct (dircolors.Key W fpath') as [key|e]; [|done].
    unfold dircolors.map_index. by rewrite lookup_empty.
Qed.

Lemma X12_no_colour_source_witness :
  dircolors.ForTTY (world_dircolors (inr ENOENT) "") "d" init_State
  = (Returned "d",
     {| tty := Some ∅;
        glog := [Warning "no dircolor support: %s" (OsError ENOENT)];
        stdout := [] |}).
Proof.
  apply (proj1 (X12_no_colour_source (world_dircolors (inr ENOENT) "") init_State
                  (OsError ENOENT) eq_refl eq_refl eq_refl "d" "d")).
Defined.

(** ** The pairs of the colour specification *)

Lemma Split_cons (c : ascii) (s : string) :
  exists h t, strings_Split c s = h :: t.
Proof.
  induction s as [|a s (h & t & IH)]; simpl; [by eexists _, _|].
  destruct (Ascii.eqb a c); [by eexists _, _|]. rewrite IH. by eexists _, _.
Qed.

Lemma Split_none (c : ascii) (p : string) :
  occurrences c p = O -> strings_Split c p = [p].
Proof.
  induction p as [|a p IH]; simpl; [done|].
  destruct (Ascii.eqb a c); [lia|]. intros Hocc. by rewrite IH.
Qed.

Lemma Split_app (c : ascii) (a b : string) :
  strings_Split c (a +:+ String c b) = (strings_Split c a ++ strings_Split c b)%list.
Proof.
  induction a as [|x a IH].
  - simpl. by rewrite Ascii.eqb_refl.
  - change (String x a +:+ String c b) with (String x (a +:+ String c b)).
    simpl. destruct (Ascii.eqb x c); [by rewrite IH|].
    rewrite IH. by destruct (Split_cons c a) as (h & t & ->).
Qed.

Lemma Split_pieces (c : ascii) (s : string) :
  Forall (fun p => occurrences c p = O) (strings_Split c s).
Proof.
  induction s as [|a s IH]; simpl; [by repeat constructor|].
  destruct (Ascii.eqb a c) eqn:Hac; [by constructor|].
  destruct (strings_Split c s) as [|h t]; [by repeat constructor; simpl; rewrite Hac|].
  apply Forall_cons in IH as [Hh Ht]. constructor; [|done]. simpl. by rewrite Hac.
Qed.

(** X13. A pair appended to the specification overrides what came before:
    for a code [k] and an attribute [v] without ":" and a code without "=",
    the database of [s ++ ":" ++ k ++ "=" ++ v] is the database of [s] with
    [k] set to [v], so that of two pairs for one code the last one counts. *)
Theorem X13_parse_pairs_last_wins (s k v : string) :
  occurrences ":" k = O -> occurrences ":" v = O -> occurrences "=" k = O ->
  dircolors.parse_pairs (s +:+ ":" +:+ k +:+ "=" +:+ v)
  = <[k := v]> (dircolors.parse_pairs s).
Proof.
  intros Hk Hv Hkeq. unfold dircolors.parse_pairs.
  change (s +:+ ":" +:+ k +:+ "=" +:+ v) with (s +:+ String ":" (k +:+ String "=" v)).
  rewrite Split_app, fold_left_app, Split_none.
  - simpl. rewrite store_pair_cut.
    by rewrite (proj2 (cut_Some "=" (k +:+ String "=" v) k v) (conj eq_refl Hkeq)).
  - rewrite occurrences_app. simpl. lia.
Qed.

Lemma X13_parse_pairs_last_wins_witness :
  dircolors.parse_pairs ("di=01;34:ln=01;36" +:+ ":" +:+ "di" +:+ "=" +:+ "00")
  = <["di" := "00"]> (dircolors.parse_pairs "di=01;34:ln=01;36").
Proof.
  apply (X13_parse_pairs_last_wins "di=01;34:ln=01;36" "di" "00"); reflexivity.
Defined.

Lemma fold_store_pair_value (l : list string) (m : gmap string string) (k v : string) :
  fold_left dircolors.store_pair l m !! k = Some v ->
  m !! k = Some v \/ exists pair, pair ∈ l /\ cut "=" pair = Some (k, v).
Proof.
  revert m. induction l as [|p l IH]; intros m; simpl; [by left|].
  intros Hv. apply IH in Hv as [Hm|(pair & Hin & Hcut)].
  - rewrite store_pair_cut in Hm.
    destruct (cut "=" p) as [[k' v']|] eqn:Hp; [|by left].
    destruct (decide (k' = k)) as [->|Hne].
    + rewrite lookup_insert_eq in Hm. injection Hm as ->.
      right. exists p. split; [left|done].
    + rewrite lookup_insert_ne in Hm by done. by left.
  - right. exists pair. split; [by right|done].
Qed.

(** X14. Whatever the database holds comes from a pair of the
    specification: if the code [k] has the attribute [v], then [k ++ "=" ++ v]
    is one of the pairs between the colons of the specification; [k] has no
    "=" in it, and neither [k] nor [v] has a ":". The database of the empty
    specification is empty. *)
Theorem X14_parse_pairs_sound (s k v : string) :
  dircolors.parse_pairs s !! k = Some v ->
  (k +:+ "=" +:+ v) ∈ strings_Split ":" s /\
  occurrences "=" k = O /\ occurrences ":" k = O /\ occurrences ":" v = O /\
  dircolors.parse_pairs "" = ∅.
Proof.
  unfold dircolors.parse_pairs at 1. intros Hv.
  apply fold_store_pair_value in Hv as [Hm|(pair & Hin & Hcut)];
    [by rewrite lookup_empty in Hm|].
  apply cut_Some in Hcut as [-> Hk].
  pose proof (Split_pieces ":" s) as Hpieces. rewrite Forall_forall in Hpieces.
  specialize (Hpieces _ Hin). rewrite occurrences_app in Hpieces. simpl in Hpieces.
  split; [done|]. split; [done|]. split; [lia|]. split; [lia|done].
Qed.

Lemma X14_parse_pairs_sound_witness :
  ("ln" +:+ "=" +:+ "01;36") ∈ strings_Split ":" "di=01;34:ln=01;36" /\
  occurrences "=" "ln" = O /\ occurrences ":" "ln" = O /\ occurrences ":" "01;36" = O /\
  dircolors.parse_pairs "" = ∅.
Proof.
  apply (X14_parse_pairs_sound "di=01;34:ln=01;36" "ln" "01;36"). reflexivity.
Defined.

(** ** The errors of the classifier *)

(** X15. [Key] fails in two cases only: [os.Lstat] fails with an error other
    than "does not exist", which [Key] returns; or the link count is not
    available for a file that is no directory, symbolic link, named pipe,
    socket or device and has no setuid, setgid or execute bit, where the
    error is "unsupported system". A path that does not exist is no error. *)
Theorem X15_Key_errors (W : World) (fpath : string) (e : error) :
  dircolors.Key W fpath = inr e <->
  (exists oe : oserror,
     os_Lstat W fpath = inr oe /\ oe <> ENOENT /\ e = OsError oe) \/
  (exists info : FileInfo,
     os_Lstat W fpath = inl info /\ Sys info = None /\
     Forall (fun n => Z.testbit (Mode info) n = false)
       [31; 27; 26; 25; 24; 23; 22; 6; 3; 0] /\
     e = ErrUnsupportedSystem).
Proof.
  rewrite Key_classify_spec. unfold classify_spec. split.
  - destruct (os_Lstat W fpath) as [info|oe] eqn:Hstat.
    + unfold priority_rules, first_match. intros He. right. exists info.
      destruct (Z.testbit (Mode info) 31) eqn:H31; [discriminate|].
      destruct (Z.testbit (Mode info) 27) eqn:H27; [discriminate|].
      destruct (Z.testbit (Mode info) 25) eqn:H25; [discriminate|].
      destruct (Z.testbit (Mode info) 24) eqn:H24; [discriminate|].
      destruct (Z.testbit (Mode info) 26) eqn:H26; [discriminate|].
      destruct (Z.testbit (Mode info) 23) eqn:H23; [discriminate|].
      destruct (Z.testbit (Mode info) 22) eqn:H22; [discriminate|].
      destruct (Z.testbit (Mode info) 6) eqn:H6; [discriminate|].
      destruct (Z.testbit (Mode info) 3) eqn:H3; [discriminate|].
      destruct (Z.testbit (Mode info) 0) eqn:H0; [discriminate|].
      simpl in He. destruct (Sys info) as [sys|] eqn:Hsys.
      * destruct (1 <? Nlink sys); [discriminate|].
        destruct (negb (String.eqb (filepath_Ext fpath) "")); discriminate.
      * injection He as <-. split; [done|]. split; [done|].
        split; [by repeat constructor|done].
    + intros He. left. exists oe. destruct oe; [discriminate| |];
        injection He as <-; done.
  - intros [(oe & -> & Hoe & ->)|(info & -> & Hsys & Hbits & ->)].
    + by destruct oe.
    + unfold priority_rules, first_match.
      repeat (apply Forall_cons in Hbits as [-> Hbits]). by rewrite Hsys.
Qed.

(** ** The run as a whole *)

(** X16. Without colours (the flag is neither "always" nor "auto" on a
    terminal), a run whose report parses ends normally; it writes one line
    for each sorted record and one for the total, each with the name as it
    is in the report, and leaves the colour database and the diagnostic
    stream as they were: the classifier is not consulted. *)
Theorem X16_main_without_colours (sort_Sort : duSlice -> duSlice) (W : World)
    (st : State) (ps : list string) (data : string) (s : duSlice) :
  colorize W = false ->
  paths W (flag_Args W) = inl ps ->
  execDu W ps = inl data ->
  newDuSlice W data = Returned (inl s) ->
  main sort_Sort W st =
    (Done,
     {| tty := tty st; glog := glog st;
        stdout := (stdout st
                   ++ map (fun r => line_of W r (name r)) (sort_Sort s)
                   ++ [line_of W {| name := "total"; size := total (sort_Sort s);
                                    childrenCount := 0 |} "total"])%list |}).
Proof.
  intros Hc Hp Hd Hs. unfold main. rewrite Hp, Hd, Hs.
  unfold WriteAll. rewrite Hc, WriteAll_loop_plain.
  unfold with_total. by rewrite map_app.
Qed.

Lemma X16_main_without_colours_witness :
  main sort_by_size (with_report quiet report_tmp) init_State =
    (Done,
     {| tty := None; glog := [];
        stdout := [line_of quiet (rec "/tmp/a" 1024) "/tmp/a";
                   line_of quiet (rec "/tmp" 4096) "/tmp";
                   line_of quiet (rec "total" 5120) "total"] |}).
Proof.
  apply (X16_main_without_colours sort_by_size (with_report quiet report_tmp)
           init_State [] report_tmp [rec "/tmp" 4096; rec "/tmp/a" 1024]);
    reflexivity.
Defined.

(** X17. A run ends through [glog.Exit] exactly when the path arguments
    cannot be resolved, [du] cannot be run, or the report has a line that
    [newDuSlice] rejects. The status is then 1, exactly one fatal message
    has been logged, and nothing has been written to standard output. *)
Theorem X17_main_fatal_exits (sort_Sort : duSlice -> duSlice) (W : World) (st : State) :
  ((exists code st', main sort_Sort W st = (Exit code, st')) <->
   (exists e, paths W (flag_Args W) = inr e) \/
   (exists ps e, paths W (flag_Args W) = inl ps /\ execDu W ps = inr e) \/
   (exists ps data e, paths W (flag_Args W) = inl ps /\ execDu W ps = inl data /\
                      newDuSlice W data = Returned (inr e))) /\
  (forall code st', main sort_Sort W st = (Exit code, st') ->
     code = 1 /\ stdout st' = stdout st /\ tty st' = tty st /\
     exists msg e, glog st' = (glog st ++ [Fatal msg e])%list).
Proof.
  unfold main, glog_Exit.
  destruct (paths W (flag_Args W)) as [ps|e] eqn:Hp.
  2:{ split.
      - split; [intros _; left; by eexists|intros _; by eexists _, _].
      - intros code st' [= <- <-]. simpl. by eauto 6. }
  destruct (execDu W ps) as [data|e] eqn:Hd.
  2:{ split.
      - split; [intros _; right; left; by exists ps, e|intros _; by eexists _, _].
      - intros code st' [= <- <-]. simpl. by eauto 6. }
  assert (Hsame : forall ps' data',
            @inl _ oserror ps = inl ps' -> execDu W ps' = inl data' -> data' = data).
  { intros ps' data' [= <-] Hd'. congruence. }
  destruct (newDuSlice W data) as [[s|e]|msg] eqn:Hs.
  - split.
    + split.
      * intros (code & st' & Hmain).
        destruct (WriteAll W (with_total (sort_Sort s)) st) as [[[]|m] st1]; discriminate.
      * intros [(e & ?)|[(ps' & e & Hp' & Hd')|(ps' & data' & e & Hp' & Hd' & Hs')]];
          [discriminate|injection Hp' as <-; congruence|].
        rewrite (Hsame ps' data' Hp' Hd') in Hs'. congruence.
    + intros code st' Hmain.
      destruct (WriteAll W (with_total (sort_Sort s)) st) as [[[]|m] st1]; discriminate.
  - split.
    + split; [intros _; right; right; by exists ps, data, e|intros _; by eexists _, _].
    + intros code st' [= <- <-]. simpl. by eauto 6.
  - split.
    + split.
      * intros (code & st' & ?). discriminate.
      * intros [(e & ?)|[(ps' & e & Hp' & Hd')|(ps' & data' & e & Hp' & Hd' & Hs')]];
          [discriminate|injection Hp' as <-; congruence|].
        rewrite (Hsame ps' data' Hp' Hd') in Hs'. congruence.
    + intros code st' ?. discriminate.
Qed.

Lemma X17_main_fatal_exits_witness :
  1 = 1 /\ stdout (log (Fatal "Bad args: %s" (OsError ENOENT)) init_State) = stdout init_State /\
  tty (log (Fatal "Bad args: %s" (OsError ENOENT)) init_State) = tty init_State /\
  exists msg e,
    glog (log (Fatal "Bad args: %s" (OsError ENOENT)) init_State)
    = (glog init_State ++ [Fatal msg e])%list.
Proof.
  apply (proj2 (X17_main_fatal_exits sort_by_size world_nope init_State) 1
           (log (Fatal "Bad args: %s" (OsError ENOENT)) init_State)).
  reflexivity.
Defined.

(** ** Counting, once more *)

Lemma visited_all (evs : list (option oserror)) :
  Forall (fun ev => ev = None) evs ->
  visited_before_error evs = length (filter (fun ev => ev = None) evs).
Proof.
  induction 1 as [|ev evs -> _ IH]; [done|].
  rewrite filter_cons_True by done. simpl. by rewrite IH.
Qed.

(** X18. For a path that is no directory the count is 1, which
    [formatCount] shows as a blank field. For a tree in which every entry
    can be examined and every directory read, the count is the number of
    all its entries (as an [int]). *)
Theorem X18_count_of_readable_tree (W : World) (fpath : string) :
  (forall name info readdir children,
     fs_tree W fpath = Node name info readdir children -> IsDir info = false ->
     count W fpath = 1 /\ formatCount (count W fpath) = "         ") /\
  (Forall (fun ev => ev = None) (events (fs_tree W fpath)) ->
   count W fpath = wrap_int (Z.of_nat (length (events (fs_tree W fpath)))) /\
   length (events (fs_tree W fpath)) = visitable (fs_tree W fpath)).
Proof.
  split.
  - intros name info readdir children Ht Hdir.
    assert (Hc : count W fpath = 1).
    { rewrite count_events, Ht. simpl. by rewrite Hdir. }
    by rewrite Hc.
  - intros Hall. rewrite count_events. change 0 with (wrap_int 0) at 1.
    rewrite run_events_count, (visited_all _ Hall). unfold visitable.
    assert (Hlen : length (filter (fun ev => ev = None) (events (fs_tree W fpath)))
                   = length (events (fs_tree W fpath))).
    { clear -Hall. induction Hall as [|ev evs -> _ IH]; [done|].
      rewrite filter_cons_True by done. simpl. by rewrite IH. }
    rewrite Hlen. split; [f_equal; lia|done].
Qed.

Lemma X18_count_of_readable_tree_witness :
  (count (world_with exec_two_links) "f.sh" = 1 /\
   formatCount (count (world_with exec_two_links) "f.sh") = "         ") /\
  (count (world_with exec_two_links) "f.sh"
   = wrap_int (Z.of_nat (length (events (fs_tree (world_with exec_two_links) "f.sh")))) /\
   length (events (fs_tree (world_with exec_two_links) "f.sh"))
   = visitable (fs_tree (world_with exec_two_links) "f.sh")).
Proof.
  split.
  - apply (proj1 (X18_count_of_readable_tree (world_with exec_two_links) "f.sh")
             "f.sh" exec_two_links None []); reflexivity.
  - apply (proj2 (X18_count_of_readable_tree (world_with exec_two_links) "f.sh")).
    repeat constructor.
Defined.

(** X19. For a tree with fewer than 2^63 entries the count is not negative
    and is at most the number of entries that can be visited; it is 0 only
    if the walk meets an error at its very start. *)
Theorem X19_count_bounds (W : World) (fpath : string) :
  Z.of_nat (visitable (fs_tree W fpath)) <= maxInt ->
  0 <= count W fpath <= Z.of_nat (visitable (fs_tree W fpath)) /\
  (count W fpath = 0 ->
   exists e rest, events (fs_tree W fpath) = Some e :: rest).
Proof.
  intros Hsmall.
  assert (Hcount : count W fpath
            = Z.of_nat (visited_before_error (events (fs_tree W fpath)))).
  { rewrite count_events. change 0 with (wrap_int 0) at 1.
    rewrite run_events_count. apply wrap_int_small.
    pose proof (visited_le_visitable (events (fs_tree W fpath))) as Hle.
    unfold visitable in Hsmall. int_bounds. lia. }
  pose proof (visited_le_visitable (events (fs_tree W fpath))) as Hle.
  unfold visitable in *. rewrite Hcount. split; [lia|].
  intros Hzero.
  destruct (events (fs_tree W fpath)) as [|[e|] rest] eqn:Hev.
  - exfalso. clear -Hev. destruct (fs_tree W fpath) as [n e|n info [e|] ch]; simpl in Hev.
    + discriminate.
    + by destruct (negb (IsDir info)).
    + by destruct (negb (IsDir info)).
  - by exists e, rest.
  - simpl in Hzero. lia.
Qed.

Lemma X19_count_bounds_witness :
  0 <= count world_d "d" <= Z.of_nat (visitable (fs_tree world_d "d")) /\
  (count world_d "d" = 0 ->
   exists e rest, events (fs_tree world_d "d") = Some e :: rest).
Proof.
  apply (X19_count_bounds world_d "d"). vm_compute. discriminate.
Defined.

(** ** The layout of a line *)

Lemma length_spaces (n : nat) :
  String.length (string_of_list_ascii (repeat " "%char n)) = n.
Proof. induction n as [|n IH]; simpl; [done|]. by rewrite IH. Qed.

Lemma length_pad_left (w : nat) (s : string) :
  String.length (pad_left w s) = Nat.max w (String.length s).
Proof. unfold pad_left. rewrite length_append, length_spaces. lia. Qed.

(** X20. Every line that [WriteAll] writes is the size field, a space, the
    count field, a space, the name and a newline. The size field is 12
    characters wide, or as wide as the humanized size if that is longer;
    the count field is at least 9 wide and blank for counts up to 1, so
    that the name starts at column 23 unless a field overflows. *)
Theorem X20_line_layout (W : World) (info : duInfo) (shown : string) :
  exists size_field count_field : string,
    line_of W info shown
    = size_field +:+ " " +:+ count_field +:+ " " +:+ shown +:+ NL /\
    String.length size_field
    = Nat.max 12 (String.length (humanize_IBytes W (to_uint64 (size info)))) /\
    (9 <= String.length count_field)%nat /\
    (childrenCount info <= 1 -> count_field = "         ") /\
    (1 < childrenCount info ->
     String.length count_field = Nat.max 9 (String.length (pretty (childrenCount info)))).
Proof.
  exists (pad_left 12 (humanize_IBytes W (to_uint64 (size info)))),
         (formatCount (childrenCount info)).
  split; [done|]. split; [apply length_pad_left|].
  unfold formatCount.
  destruct (Z.leb_spec (childrenCount info) 1) as [Hle|Hgt].
  - split; [simpl; lia|]. split; [done|lia].
  - rewrite length_pad_left. split; [lia|]. split; [lia|done].
Qed.

Lemma X20_line_layout_witness :
  exists size_field count_field : string,
    line_of quiet (rec "/tmp" 4096) "/tmp"
    = size_field +:+ " " +:+ count_field +:+ " " +:+ "/tmp" +:+ NL /\
    String.length size_field
    = Nat.max 12 (String.length (humanize_IBytes quiet (to_uint64 (size (rec "/tmp" 4096))))) /\
    (9 <= String.length count_field)%nat /\
    (childrenCount (rec "/tmp" 4096) <= 1 -> count_field = "         ") /\
    (1 < childrenCount (rec "/tmp" 4096) ->
     String.length count_field
     = Nat.max 9 (String.length (pretty (childrenCount (rec "/tmp" 4096))))).
Proof. apply (X20_line_layout quiet (rec "/tmp" 4096) "/tmp"). Defined.

(** X21. Whatever happens, [WriteAll] only appends to standard output: what
    was written before stays, and the new lines are those of a prefix of
    the slice, in order, one for each record. When it returns, there is a
    line for every record; when a panic ends it, the lines of the records
    before the one that failed have been written. *)
Theorem X21_WriteAll_appends (W : World) (s : duSlice) (st st' : State)
    (r : outcome unit) :
  WriteAll W s st = (r, st') ->
  exists shown : list string,
    stdout st' = (stdout st ++ zip_with (line_of W) s shown)%list /\
    (length shown <= length s)%nat /\
    (r = Returned tt -> length shown = length s).
Proof. apply WriteAll_loop_lines. Qed.

Lemma X21_WriteAll_appends_witness :
  exists shown : list string,
    stdout (snd (WriteAll world_nolink [rec "f" 10] init_State))
    = (stdout init_State ++ zip_with (line_of world_nolink) [rec "f" 10] shown)%list /\
    (length shown <= length [rec "f" 10])%nat /\
    (Returned tt = Returned tt -> length shown = length [rec "f" 10]).
Proof.
  apply (X21_WriteAll_appends world_nolink [rec "f" 10] init_State
           (snd (WriteAll world_nolink [rec "f" 10] init_State)) (Returned tt)).
  reflexivity.
Defined.
